(** * libac: the circular queue of [ac_cqueue.c] and the list of
    [ac_slist.c]

    A shallow embedding of [ac_cqueue_new], [ac_cqueue_push],
    [ac_cqueue_pop], [ac_cqueue_foreach], [ac_cqueue_is_empty],
    [ac_cqueue_nr_items] and [ac_cqueue_destroy], and of the functions of
    [ac_slist.c], followed by the properties of the queue that the
    specification states and by further properties of the queue and of
    the list.

    Conventions of the embedding:
    - a [void *] is its address, a [Z]; [NULL] is [0];
    - a [size_t] is a [Z] in [0 .. SIZE_MAX] (64 bits); every increment and
      decrement of the source goes through [to_size_t], its wrap-around;
    - the slot array [cqueue->queue] is a [list ptr]; reading or writing
      outside of it is undefined behaviour in C: here a read gives [NULL]
      and a write changes nothing; what is proved of the queues whose
      array has [size] slots only relies on accesses that are in range;
    - [malloc] and [realloc] are given the byte count that the source
      computes, in [size_t]: the array they return has the slots that fit
      in that many bytes; either may return [NULL], which [ac_cqueue_push]
      tests and [ac_cqueue_new] does not; the contents of the memory they
      hand out are indeterminate: they are an argument ([nat -> ptr], the
      value found at each offset of the new memory);
    - [free_item] is code of the caller: a call of it is recorded, with its
      argument, in the trace that each operation returns. *)

From Stdlib Require Import ZArith Lia Bool.
From stdpp Require Import base list gmap.

Local Open Scope Z_scope.

(** ** Machine values *)

Definition ptr : Type := Z.
Definition NULL : ptr := 0.

Definition SIZE_MAX : Z := 18446744073709551615.

Definition to_size_t (z : Z) : Z := z mod (SIZE_MAX + 1).

Definition is_size_t (z : Z) : Prop := 0 <= z <= SIZE_MAX.

Definition AC_CQUEUE_ALLOC_CHUNK_SZ : Z := 16.

Inductive errno : Type := EINVAL.

(** [sizeof(void * )], for the 64-bit [size_t] above. *)
Definition sizeof_ptr : Z := 8.

(** The result of running a piece of code: a value, undefined behaviour
    (an access through [NULL] or to memory that is not allocated, a call
    through a null function pointer), or not enough fuel. *)
Inductive outcome (A : Type) : Type :=
  | Ok (a : A)
  | Fault
  | OutOfFuel.

Arguments Ok {A} a.
Arguments Fault {A}.
Arguments OutOfFuel {A}.

(** The function stored in [cqueue->free_item]: the static
    [null_free_item] of the file, or the function the caller gave. *)
Inductive free_fn : Type :=
  | null_free_item
  | caller_free_item (addr : ptr).

(** One call [f(arg)] of a release function. *)
Record call : Type := Call { callee : free_fn; arg : ptr }.

(** ** Memory *)

(** [queue[i]] *)
Definition load (q : list ptr) (i : Z) : ptr := default NULL (q !! Z.to_nat i).

(** [queue[i] = v] *)
Definition store (q : list ptr) (i : Z) (v : ptr) : list ptr :=
  <[Z.to_nat i := v]> q.

(** [n] new slots of indeterminate contents: [heap] gives the value found
    in each. *)
Definition fresh_slots (heap : nat -> ptr) (n : Z) : list ptr :=
  heap <$> seq 0 (Z.to_nat n).

(** [malloc(bytes)] for the slot array: [None] when it returns [NULL];
    otherwise the slots that fit in [bytes] bytes, of indeterminate
    contents. *)
Definition malloc (mem : option (nat -> ptr)) (bytes : Z)
    : option (list ptr) :=
  match mem with
  | None => None
  | Some heap => Some (fresh_slots heap (bytes / sizeof_ptr))
  end.

(** [memset(q, 0, bytes)], [bytes] being the byte count that was given to
    [malloc] for [q]: over the whole array. *)
Definition memset0 (q : list ptr) : list ptr := replicate (length q) NULL.

(** [realloc(q, bytes)]: [None] when it returns [NULL]; otherwise an array
    of the slots that fit in [bytes] bytes: the old slots, in place or
    copied, as many of them as fit, followed by the new ones, of
    indeterminate contents. *)
Definition realloc (mem : option (nat -> ptr)) (q : list ptr) (bytes : Z)
    : option (list ptr) :=
  match mem with
  | None => None
  | Some heap =>
      let n := bytes / sizeof_ptr in
      Some (take (Z.to_nat n) q ++ fresh_slots heap (n - Z.of_nat (length q)))
  end.

(** ** The queue *)

(** Modelled from the spec: [struct ac_cqueue_t] is declared in
    [include/libac.h], which is not among the sources; these are the fields
    that [ac_cqueue.c] reads and writes, the indices and counts being
    [size_t] as the loop counters they are compared with. *)
Record ac_cqueue_t : Type := mk_cqueue {
  queue : list ptr;
  front : Z;
  rear : Z;
  count : Z;
  size : Z;
  dyn_size : bool;
  overwrite : bool;
  free_item : free_fn
}.

Definition set_queue (cq : ac_cqueue_t) (q : list ptr) : ac_cqueue_t :=
  mk_cqueue q (front cq) (rear cq) (count cq) (size cq)
            (dyn_size cq) (overwrite cq) (free_item cq).

Definition set_front (cq : ac_cqueue_t) (v : Z) : ac_cqueue_t :=
  mk_cqueue (queue cq) v (rear cq) (count cq) (size cq)
            (dyn_size cq) (overwrite cq) (free_item cq).

Definition set_rear (cq : ac_cqueue_t) (v : Z) : ac_cqueue_t :=
  mk_cqueue (queue cq) (front cq) v (count cq) (size cq)
            (dyn_size cq) (overwrite cq) (free_item cq).

Definition set_count (cq : ac_cqueue_t) (v : Z) : ac_cqueue_t :=
  mk_cqueue (queue cq) (front cq) (rear cq) v (size cq)
            (dyn_size cq) (overwrite cq) (free_item cq).

Definition set_size (cq : ac_cqueue_t) (v : Z) : ac_cqueue_t :=
  mk_cqueue (queue cq) (front cq) (rear cq) (count cq) v
            (dyn_size cq) (overwrite cq) (free_item cq).

(** [cqueue->free_item(p)] *)
Definition call_free (cq : ac_cqueue_t) (p : ptr) : call :=
  Call (free_item cq) p.

(** ** ac_cqueue_new *)

Section Construct.

(** The flag bit [AC_CQUEUE_OVERWRITE] is a macro of [include/libac.h],
    which is not among the sources: it is a parameter. *)
Variable AC_CQUEUE_OVERWRITE : Z.

(** [Ok (inl EINVAL)] stands for the [NULL] result with [errno = EINVAL],
    [Ok (inr cq)] for the queue returned, [Fault] for undefined behaviour.
    [fn] is the [free_item] argument, a function pointer ([NULL] for none).
    [obj] tells whether [malloc(sizeof(struct ac_cqueue_t))] succeeds: its
    result is not tested, and when it is [NULL] the assignment to
    [cqueue->size] goes through [NULL]. [mem] is what the [malloc] of the
    slot array does; the byte count [cqueue->size * sizeof(void * )] is
    computed in [size_t]. Its result is not tested either: when it is
    [NULL], [memset] is called on [NULL] in overwrite mode, and otherwise
    the queue is returned with [cqueue->queue == NULL], an array without a
    slot. *)
Definition ac_cqueue_new (obj : bool) (mem : option (nat -> ptr)) (size : Z)
    (fn : ptr) (flags : Z) : outcome (errno + ac_cqueue_t) :=
  if negb (Z.land flags (Z.lnot AC_CQUEUE_OVERWRITE) =? 0) then Ok (inl EINVAL)
  else if negb obj then Fault
  else
    let sz := if size =? 0 then AC_CQUEUE_ALLOC_CHUNK_SZ else size in
    let dyn := if size =? 0 then true else false in
    let q := malloc mem (to_size_t (sz * sizeof_ptr)) in
    let ow := if Z.land flags AC_CQUEUE_OVERWRITE =? 0 then false else true in
    let f := if fn =? NULL then null_free_item else caller_free_item fn in
    match q with
    | None => if ow then Fault else Ok (inr (mk_cqueue [] 0 0 0 sz dyn ow f))
    | Some q =>
        let q := if ow then memset0 q else q in
        Ok (inr (mk_cqueue q 0 0 0 sz dyn ow f))
    end.

End Construct.

(** ** ac_cqueue_push *)

(** The growth step: [None] when [realloc] fails (the queue is then left
    as it was), the queue to go on with otherwise. The byte count
    [(size + AC_CQUEUE_ALLOC_CHUNK_SZ) * sizeof(void * )] is computed in
    [size_t]. *)
Definition push_grow (mem : option (nat -> ptr)) (cq : ac_cqueue_t)
    : option ac_cqueue_t :=
  if (count cq =? size cq) && dyn_size cq then
    match realloc mem (queue cq)
            (to_size_t ((size cq + AC_CQUEUE_ALLOC_CHUNK_SZ) * sizeof_ptr))
    with
    | None => None
    | Some q =>
        Some (set_size (set_queue cq q)
                (to_size_t (size cq + AC_CQUEUE_ALLOC_CHUNK_SZ)))
    end
  else Some cq.

(** The move of [front] at the end of [ac_cqueue_push]. *)
Definition push_track_front (cq : ac_cqueue_t) : ac_cqueue_t :=
  if overwrite cq && (front cq <? rear cq) then
    let cq := set_front cq (rear cq) in
    if front cq =? size cq then set_front cq 0 else cq
  else cq.

(** Result: the return value ([-1] or [0]), the queue after the call and
    the calls of [free_item] made, in order. [mem] is what [realloc] does
    if it is called. *)
Definition ac_cqueue_push (mem : option (nat -> ptr)) (cq : ac_cqueue_t)
    (item : ptr) : Z * ac_cqueue_t * list call :=
  if (count cq =? size cq) && negb (dyn_size cq) && negb (overwrite cq) then
    (-1, cq, [])
  else
    match push_grow mem cq with
    | None => (-1, cq, [])
    | Some cq =>
        let cq := if rear cq =? size cq then set_rear cq 0 else cq in
        let freed :=
          if overwrite cq && negb (load (queue cq) (rear cq) =? NULL)
          then [call_free cq (load (queue cq) (rear cq))] else [] in
        let cq := set_queue cq (store (queue cq) (rear cq) item) in
        let cq := set_rear cq (to_size_t (rear cq + 1)) in
        let cq :=
          if count cq <? size cq then set_count cq (to_size_t (count cq + 1))
          else cq in
        (0, push_track_front cq, freed)
    end.

(** ** ac_cqueue_pop *)

(** Result: the pointer returned and the queue after the call. *)
Definition ac_cqueue_pop (cq : ac_cqueue_t) : ptr * ac_cqueue_t :=
  if count cq =? 0 then (NULL, cq)
  else
    let cq := if front cq =? size cq then set_front cq 0 else cq in
    let cq := set_count cq (to_size_t (count cq - 1)) in
    let p := load (queue cq) (front cq) in
    let cq :=
      if overwrite cq then set_queue cq (store (queue cq) (front cq) NULL)
      else cq in
    let cq := set_front cq (to_size_t (front cq + 1)) in
    (p, cq).

(** ** Loops over the slots *)

(** [for (i = lo; i < hi; i++) body(queue[i]);] as the list of the
    [queue[i]] visited, in order. *)
Definition for_slots (q : list ptr) (lo hi : Z) : list ptr :=
  load q <$> seqZ lo (hi - lo).

(** The slots that both [ac_cqueue_foreach] and [ac_cqueue_destroy] walk
    through: one span when [front < rear], two otherwise. *)
Definition spans (cq : ac_cqueue_t) : list ptr :=
  if front cq <? rear cq then for_slots (queue cq) (front cq) (rear cq)
  else for_slots (queue cq) (front cq) (size cq)
       ++ for_slots (queue cq) 0 (rear cq).

(** ** ac_cqueue_foreach, ac_cqueue_is_empty, ac_cqueue_nr_items *)

(** The items [action] is called on, in order. *)
Definition ac_cqueue_foreach (cq : ac_cqueue_t) : list ptr :=
  if count cq =? 0 then [] else spans cq.

Definition ac_cqueue_is_empty (cq : ac_cqueue_t) : bool := count cq =? 0.

Definition ac_cqueue_nr_items (cq : ac_cqueue_t) : Z := count cq.

(** ** ac_cqueue_destroy *)

(** The calls of [free_item] made, in order; the queue does not exist
    afterwards. *)
Definition ac_cqueue_destroy (cq : ac_cqueue_t) : list call :=
  call_free cq <$> spans cq.

(** ** Sequences of operations *)

Inductive op : Type :=
  | Push (item : ptr) (mem : option (nat -> ptr))
  | Pop.

Inductive ret : Type :=
  | RPush (rc : Z)
  | RPop (p : ptr).

Definition step (cq : ac_cqueue_t) (o : op) : ret * ac_cqueue_t * list call :=
  match o with
  | Push item mem =>
      let '(rc, cq', tr) := ac_cqueue_push mem cq item in (RPush rc, cq', tr)
  | Pop =>
      let '(p, cq') := ac_cqueue_pop cq in (RPop p, cq', [])
  end.

(** The results of the operations, the final queue and the whole trace. *)
Fixpoint run (cq : ac_cqueue_t) (ops : list op)
    : list ret * ac_cqueue_t * list call :=
  match ops with
  | [] => ([], cq, [])
  | o :: ops =>
      let '(r, cq1, tr1) := step cq o in
      let '(rs, cq2, tr2) := run cq1 ops in
      (r :: rs, cq2, tr1 ++ tr2)
  end.

(** Pushing the items of a list one after the other, [realloc] answering
    [mem] each time it is called. *)
Fixpoint push_all (mem : option (nat -> ptr)) (cq : ac_cqueue_t)
    (items : list ptr) : list Z * ac_cqueue_t * list call :=
  match items with
  | [] => ([], cq, [])
  | x :: items =>
      let '(rc, cq1, tr1) := ac_cqueue_push mem cq x in
      let '(rcs, cq2, tr2) := push_all mem cq1 items in
      (rc :: rcs, cq2, tr1 ++ tr2)
  end.

(** [n] calls of [ac_cqueue_pop]. *)
Fixpoint pop_n (n : nat) (cq : ac_cqueue_t) : list ptr * ac_cqueue_t :=
  match n with
  | O => ([], cq)
  | S n =>
      let '(p, cq1) := ac_cqueue_pop cq in
      let '(ps, cq2) := pop_n n cq1 in
      (p :: ps, cq2)
  end.

(** ** Well-formed queues and the states met in the proofs *)

(** What the fields of a queue satisfy between two calls: the array has
    [size] slots, [size] is a positive [size_t], and [front], [rear] and
    [count] are at most [size]. *)
Definition wf (cq : ac_cqueue_t) : Prop :=
  0 < size cq <= SIZE_MAX /\
  0 <= front cq <= size cq /\
  0 <= rear cq <= size cq /\
  0 <= count cq <= size cq /\
  length (queue cq) = Z.to_nat (size cq).

(** The part of [wf] that is about the fields alone, whatever the array
    is. *)
Definition wf_fields (cq : ac_cqueue_t) : Prop :=
  0 < size cq <= SIZE_MAX /\
  0 <= front cq <= size cq /\
  0 <= rear cq <= size cq /\
  0 <= count cq <= size cq.

(** Case analysis on the comparisons of the goal. *)
Ltac case_cmp :=
  match goal with
  | |- context [Z.eqb ?a ?b] => destruct (Z.eqb_spec a b)
  | |- context [Z.ltb ?a ?b] => destruct (Z.ltb_spec a b)
  end.

(** The bounds that hold on the indices between two calls. *)
Definition index_bounds (cq : ac_cqueue_t) : Prop :=
  0 <= front cq <= size cq /\ 0 <= rear cq <= size cq.

(** The bounds as the specification words them: [front] strictly below
    the capacity. *)
Definition index_bounds_strict (cq : ac_cqueue_t) : Prop :=
  0 <= front cq < size cq /\ 0 <= rear cq <= size cq.



(** A queue without overwrite that has only been pushed into: the items
    are in [pre], in order, and [suf] are the slots not written yet. *)
Definition filled (dyn : bool) (fi : free_fn) (pre suf : list ptr)
    : ac_cqueue_t :=
  mk_cqueue (pre ++ suf) 0 (Z.of_nat (length pre)) (Z.of_nat (length pre))
            (Z.of_nat (length (pre ++ suf))) dyn false fi.

(** Pushes during which [realloc], were it called, would fail. *)
Definition pushes (items : list ptr) : list op :=
  (fun x => Push x None) <$> items.

(** ** The bounded FIFO that a fixed queue without overwrite stands for *)

(** One operation on the list of the items held, oldest first, by a queue
    of [n] slots: a push is refused when [n] items are held, a pop of
    nothing gives [NULL]. *)
Definition fifo_step (n : Z) (l : list ptr) (o : op) : ret * list ptr :=
  match o with
  | Push item _ =>
      if Z.of_nat (length l) <? n then (RPush 0, l ++ [item])
      else (RPush (-1), l)
  | Pop =>
      match l with
      | [] => (RPop NULL, [])
      | x :: l => (RPop x, l)
      end
  end.

Fixpoint fifo_run (n : Z) (l : list ptr) (ops : list op)
    : list ret * list ptr :=
  match ops with
  | [] => ([], l)
  | o :: ops =>
      let '(r, l1) := fifo_step n l o in
      let '(rs, l2) := fifo_run n l1 ops in
      (r :: rs, l2)
  end.

(** An index that has reached [size] stands for 0. *)
Definition norm (cq : ac_cqueue_t) (i : Z) : Z :=
  if i =? size cq then 0 else i.

(** [i] taken around the end of an array of [n] slots, for [i < 2 * n]. *)
Definition around (n i : Z) : Z := if i <? n then i else i - n.

(** The fixed queue [cq], without overwrite, holds the items [l], oldest
    first: they are in the slots that start at [front], around the end of
    the array, and [rear] follows the last one. *)
Definition holds (cq : ac_cqueue_t) (l : list ptr) : Prop :=
  wf cq
  /\ dyn_size cq = false /\ overwrite cq = false
  /\ count cq = Z.of_nat (length l)
  /\ norm cq (rear cq)
     = around (size cq) (norm cq (front cq) + Z.of_nat (length l))
  /\ (rear cq = 0 -> front cq = 0 /\ l = [])
  /\ (forall (i : nat) (x : ptr),
        l !! i = Some x ->
        load (queue cq)
          (around (size cq) (norm cq (front cq) + Z.of_nat i)) = x).

(** * The singly linked list of [ac_slist.c]

    The nodes live in a heap, a finite map from addresses to nodes, so
    that two pointers to one node see the same node. A loop of the source
    is a function with fuel. *)

Definition obind {A B : Type} (c : outcome A) (k : A -> outcome B)
    : outcome B :=
  match c with
  | Ok a => k a
  | Fault => Fault
  | OutOfFuel => OutOfFuel
  end.

Notation "'try!' x ':=' c 'in' k" := (obind c (fun x => k))
  (at level 10, x name, c at level 100, k at level 200).

(** Modelled from the spec: [ac_slist_t] is declared in
    [include/libac.h], which is not among the sources; these are the two
    fields that [ac_slist.c] reads and writes. *)
Record ac_slist_t : Type := slist_node { data : ptr; next : ptr }.

Abbreviation slist_heap := (gmap Z ac_slist_t).

(** [*p], for a pointer [p] to a node. *)
Definition node_at (h : slist_heap) (p : ptr) : outcome ac_slist_t :=
  if p =? NULL then Fault
  else match h !! p with
       | Some nd => Ok nd
       | None => Fault
       end.

(** [p->next = v] *)
Definition set_next (h : slist_heap) (p v : ptr) : outcome slist_heap :=
  try! nd := node_at h p in Ok (<[p := slist_node (data nd) v]> h).

(** [new = malloc(sizeof(ac_slist_t)); new->data = d; new->next = n], where
    [new] is the address that [malloc] returns, which the source does not
    test. *)
Definition new_node (h : slist_heap) (new d n : ptr) : outcome slist_heap :=
  if new =? NULL then Fault else Ok (<[new := slist_node d n]> h).

(** ** slist_last *)

Fixpoint slist_last (fuel : nat) (h : slist_heap) (list : ptr)
    : outcome ptr :=
  match fuel with
  | O => OutOfFuel
  | S fuel =>
      try! nd := node_at h list in
      if negb (next nd =? NULL) then slist_last fuel h (next nd)
      else Ok list
  end.

(** ** ac_slist_add *)

(** Result: the heap and [*list] after the call. *)
Definition ac_slist_add (fuel : nat) (new : ptr) (h : slist_heap)
    (list d : ptr) : outcome (slist_heap * ptr) :=
  try! h := new_node h new d NULL in
  if negb (list =? NULL) then
    try! last := slist_last fuel h list in
    try! h := set_next h last new in
    Ok (h, list)
  else Ok (h, new).

(** ** ac_slist_preadd *)

Definition ac_slist_preadd (new : ptr) (h : slist_heap) (list d : ptr)
    : outcome (slist_heap * ptr) :=
  try! h := new_node h new d (if negb (list =? NULL) then list else NULL) in
  Ok (h, new).

(** ** ac_slist_remove *)

(** What [pp] points to: the [*list] of the caller, or the [next] field of
    a node. *)
Inductive link : Type :=
  | Head
  | NextOf (node : ptr).

(** [*pp] *)
Definition read_link (h : slist_heap) (head : ptr) (pp : link)
    : outcome ptr :=
  match pp with
  | Head => Ok head
  | NextOf a => try! nd := node_at h a in Ok (next nd)
  end.

(** [*pp = v] *)
Definition write_link (h : slist_heap) (head : ptr) (pp : link) (v : ptr)
    : outcome (slist_heap * ptr) :=
  match pp with
  | Head => Ok (h, v)
  | NextOf a => try! h := set_next h a v in Ok (h, head)
  end.

(** The loop of [ac_slist_remove]. Result: the heap, [*list], [ret] and
    the calls of [free_data] made. [free_data] is a function pointer,
    [NULL] for none. *)
Fixpoint slist_remove_loop (fuel : nat) (h : slist_heap) (head : ptr)
    (pp : link) (d free_data : ptr)
    : outcome (slist_heap * ptr * bool * list call) :=
  match fuel with
  | O => OutOfFuel
  | S fuel =>
      try! p := read_link h head pp in
      if negb (p =? NULL) then
        try! nd := node_at h p in
        if data nd =? d then
          try! hl := write_link h head pp (next nd) in
          Ok (delete p hl.1, hl.2, true,
              if negb (free_data =? NULL)
              then [Call (caller_free_item free_data) (data nd)] else [])
        else slist_remove_loop fuel h head (NextOf p) d free_data
      else Ok (h, head, false, [])
  end.

Definition ac_slist_remove (fuel : nat) (h : slist_heap) (list d : ptr)
    (free_data : ptr)
    : outcome (slist_heap * ptr * bool * Datatypes.list call) :=
  slist_remove_loop fuel h list Head d free_data.

(** ** ac_slist_reverse *)

(** The loop of [ac_slist_reverse], [cur] being [*list]. Result: the heap
    and [prev] at the end. *)
Fixpoint slist_reverse_loop (fuel : nat) (h : slist_heap) (cur prev : ptr)
    : outcome (slist_heap * ptr) :=
  match fuel with
  | O => OutOfFuel
  | S fuel =>
      if negb (cur =? NULL) then
        try! nd := node_at h cur in
        try! h := set_next h cur prev in
        slist_reverse_loop fuel h (next nd) cur
      else Ok (h, prev)
  end.

(** Result: the heap and [*list] after the call. *)
Definition ac_slist_reverse (fuel : nat) (h : slist_heap) (list : ptr)
    : outcome (slist_heap * ptr) :=
  slist_reverse_loop fuel h list NULL.

(** ** ac_slist_find *)

Fixpoint ac_slist_find (fuel : nat) (h : slist_heap) (list d : ptr)
    : outcome ptr :=
  match fuel with
  | O => OutOfFuel
  | S fuel =>
      if negb (list =? NULL) then
        try! nd := node_at h list in
        if data nd =? d then Ok list
        else ac_slist_find fuel h (next nd) d
      else Ok NULL
  end.

(** ** ac_slist_foreach *)

(** The items [action] is called on, in order. *)
Fixpoint ac_slist_foreach (fuel : nat) (h : slist_heap) (list : ptr)
    : outcome (Datatypes.list ptr) :=
  match fuel with
  | O => OutOfFuel
  | S fuel =>
      if negb (list =? NULL) then
        try! nd := node_at h list in
        try! rest := ac_slist_foreach fuel h (next nd) in
        Ok (data nd :: rest)
      else Ok []
  end.

(** ** ac_slist_destroy *)

(** Result: the heap, [*list] and the calls of [free_data] made.
    [free_data] is called without a test: when it is [NULL] the call is
    undefined behaviour. *)
Fixpoint ac_slist_destroy (fuel : nat) (h : slist_heap) (list : ptr)
    (free_data : ptr) : outcome (slist_heap * ptr * Datatypes.list call) :=
  match fuel with
  | O => OutOfFuel
  | S fuel =>
      if negb (list =? NULL) then
        try! nd := node_at h list in
        if free_data =? NULL then Fault
        else
          try! res := ac_slist_destroy fuel (delete list h) (next nd)
                        free_data in
          Ok (res.1.1, res.1.2,
              Call (caller_free_item free_data) (data nd) :: res.2)
      else Ok (h, list, [])
  end.

(** ** Adding several items *)

(** [ac_slist_add] of each item of [items], in order; [news] are the
    addresses that the calls of [malloc] return. *)
Fixpoint slist_add_all (fuel : nat) (h : slist_heap) (list : ptr)
    (news items : Datatypes.list ptr) : outcome (slist_heap * ptr) :=
  match news, items with
  | new :: news, d :: items =>
      try! hl := ac_slist_add fuel new h list d in
      slist_add_all fuel hl.1 hl.2 news items
  | _, _ => Ok (h, list)
  end.

(** [ac_slist_preadd] of each item of [items], in order. *)
Fixpoint slist_preadd_all (h : slist_heap) (list : ptr)
    (news items : Datatypes.list ptr) : outcome (slist_heap * ptr) :=
  match news, items with
  | new :: news, d :: items =>
      try! hl := ac_slist_preadd new h list d in
      slist_preadd_all hl.1 hl.2 news items
  | _, _ => Ok (h, list)
  end.

(** ** Lists in the heap *)

(** From [p], the nodes at the addresses [cells.*1], holding the items
    [cells.*2], follow each other and lead to [q]. *)
Fixpoint lseg (h : slist_heap) (p : ptr) (cells : list (ptr * ptr))
    (q : ptr) : Prop :=
  match cells with
  | [] => p = q
  | c :: cells =>
      p = c.1 /\ c.1 <> NULL
      /\ exists n, h !! c.1 = Some (slist_node c.2 n) /\ lseg h n cells q
  end.

(** [p] is a list ended by [NULL], of distinct nodes. *)
Definition is_slist (h : slist_heap) (p : ptr) (cells : list (ptr * ptr))
    : Prop :=
  lseg h p cells NULL /\ NoDup cells.*1.

(** The heap without any node. *)
Definition no_node : slist_heap := ∅.

(** A heap with the list of the items 11 and 12, in the nodes at the
    addresses 1 and 2. *)
Definition heap12 : slist_heap :=
  <[1 := slist_node 11 2]> (<[2 := slist_node 12 NULL]> ∅).

(** * Properties *)

(** ** Arithmetic of [size_t] and of the slot array *)

Lemma to_size_t_small (z : Z) : is_size_t z -> to_size_t z = z.
Proof.
  unfold is_size_t, to_size_t, SIZE_MAX. intros Hz.
  apply Z.mod_small. lia.
Qed.

Ltac size_t_small :=
  rewrite to_size_t_small by (unfold is_size_t, SIZE_MAX in *; lia).

Lemma length_fresh_slots (heap : nat -> ptr) (n : Z) :
  length (fresh_slots heap n) = Z.to_nat n.
Proof. unfold fresh_slots. by rewrite length_fmap, length_seq. Qed.

Lemma length_memset0 (q : list ptr) : length (memset0 q) = length q.
Proof. unfold memset0. apply length_replicate. Qed.

Lemma length_store (q : list ptr) (i : Z) (v : ptr) :
  length (store q i v) = length q.
Proof. unfold store. apply length_insert. Qed.

Lemma load_middle (a b : list ptr) (x : ptr) :
  load (a ++ x :: b) (Z.of_nat (length a)) = x.
Proof.
  unfold load. rewrite Nat2Z.id.
  by rewrite list_lookup_middle.
Qed.

Lemma store_middle (a b : list ptr) (x y : ptr) :
  store (a ++ x :: b) (Z.of_nat (length a)) y = a ++ y :: b.
Proof.
  unfold store. rewrite Nat2Z.id.
  rewrite insert_app_r_alt by lia.
  by rewrite Nat.sub_diag.
Qed.

(** The byte count of an array of [sz] slots, when it is a [size_t],
    gives [sz] slots. *)
Lemma alloc_slots (sz : Z) :
  0 <= sz -> sz * sizeof_ptr <= SIZE_MAX ->
  to_size_t (sz * sizeof_ptr) / sizeof_ptr = sz.
Proof.
  unfold sizeof_ptr. intros H0 Hmax.
  rewrite to_size_t_small by (unfold is_size_t; lia).
  apply Z.div_mul. lia.
Qed.

(** [realloc] of an array of [n] slots to the byte count of [n + 16]
    slots, when that count is a [size_t]: 16 slots are added. *)
Lemma realloc_grows (heap : nat -> ptr) (q : list ptr) (n : Z) :
  length q = Z.to_nat n -> 0 <= n ->
  (n + AC_CQUEUE_ALLOC_CHUNK_SZ) * sizeof_ptr <= SIZE_MAX ->
  realloc (Some heap) q
    (to_size_t ((n + AC_CQUEUE_ALLOC_CHUNK_SZ) * sizeof_ptr))
  = Some (q ++ fresh_slots heap AC_CQUEUE_ALLOC_CHUNK_SZ).
Proof.
  intros Hq Hn Hmax. unfold realloc.
  rewrite alloc_slots by (unfold AC_CQUEUE_ALLOC_CHUNK_SZ in *; lia).
  rewrite firstn_all2 by (unfold AC_CQUEUE_ALLOC_CHUNK_SZ; lia).
  do 3 f_equal. lia.
Qed.

(** What [ac_cqueue_new] returns when the flags are known, both calls of
    [malloc] succeed and the byte count of the array is a [size_t]. *)
Lemma new_allocated (OW : Z) (heap : nat -> ptr) (n : Z) (fn : ptr)
    (flags : Z) :
  0 <= n -> n * sizeof_ptr <= SIZE_MAX ->
  Z.land flags (Z.lnot OW) = 0 ->
  let sz := if n =? 0 then AC_CQUEUE_ALLOC_CHUNK_SZ else n in
  ac_cqueue_new OW true (Some heap) n fn flags
  = Ok (inr (mk_cqueue
               (if Z.land flags OW =? 0 then fresh_slots heap sz
                else memset0 (fresh_slots heap sz))
               0 0 0 sz (if n =? 0 then true else false)
               (if Z.land flags OW =? 0 then false else true)
               (if fn =? NULL then null_free_item else caller_free_item fn))).
Proof.
  intros H0 Hmax Hz sz. unfold ac_cqueue_new, malloc. rewrite Hz. simpl.
  fold sz. rewrite alloc_slots.
  - by destruct (Z.land flags OW =? 0).
  - subst sz. unfold AC_CQUEUE_ALLOC_CHUNK_SZ. destruct (n =? 0); lia.
  - subst sz. unfold AC_CQUEUE_ALLOC_CHUNK_SZ, sizeof_ptr, SIZE_MAX in *.
    destruct (n =? 0); lia.
Qed.

(** The flags of a call that returns a queue have no stray bit. *)
Lemma new_flags (OW : Z) (obj : bool) (mem : option (nat -> ptr)) (n : Z)
    (fn : ptr) (flags : Z) (cq : ac_cqueue_t) :
  ac_cqueue_new OW obj mem n fn flags = Ok (inr cq) ->
  Z.land flags (Z.lnot OW) = 0.
Proof.
  unfold ac_cqueue_new.
  destruct (Z.eqb_spec (Z.land flags (Z.lnot OW)) 0); [done | discriminate].
Qed.

Lemma wf_new (OW : Z) (heap : nat -> ptr) (n : Z) (fn : ptr) (flags : Z)
    (cq : ac_cqueue_t) :
  0 <= n -> n * sizeof_ptr <= SIZE_MAX ->
  ac_cqueue_new OW true (Some heap) n fn flags = Ok (inr cq) ->
  wf cq /\ size cq = (if n =? 0 then AC_CQUEUE_ALLOC_CHUNK_SZ else n)
  /\ dyn_size cq = (if n =? 0 then true else false).
Proof.
  intros H0 Hmax Hnew.
  pose proof (new_flags _ _ _ _ _ _ _ Hnew) as Hz.
  rewrite (new_allocated OW heap n fn flags H0 Hmax Hz) in Hnew.
  injection Hnew as <-. unfold wf; simpl.
  assert (Hlen : forall q : list ptr,
             length (if Z.land flags OW =? 0 then q else memset0 q)
             = length q).
  { intros q. destruct (Z.land flags OW =? 0);
      [done | apply length_memset0]. }
  rewrite Hlen, length_fresh_slots.
  unfold AC_CQUEUE_ALLOC_CHUNK_SZ, sizeof_ptr, SIZE_MAX in *.
  destruct (Z.eqb_spec n 0); repeat split; lia.
Qed.

(** The fields of a queue that [ac_cqueue_new] returns, whatever the two
    calls of [malloc] did. *)
Lemma wf_fields_new (OW : Z) (obj : bool) (mem : option (nat -> ptr))
    (n : Z) (fn : ptr) (flags : Z) (cq : ac_cqueue_t) :
  is_size_t n ->
  ac_cqueue_new OW obj mem n fn flags = Ok (inr cq) ->
  wf_fields cq /\ size cq = (if n =? 0 then AC_CQUEUE_ALLOC_CHUNK_SZ else n)
  /\ dyn_size cq = (if n =? 0 then true else false).
Proof.
  unfold ac_cqueue_new, is_size_t. intros Hn.
  destruct (negb (_ =? 0)); [discriminate |].
  destruct obj; [| discriminate]. simpl.
  assert (Hf : forall q : list ptr,
    wf_fields (mk_cqueue q 0 0 0
                 (if n =? 0 then AC_CQUEUE_ALLOC_CHUNK_SZ else n)
                 (if n =? 0 then true else false)
                 (if Z.land flags OW =? 0 then false else true)
                 (if fn =? NULL then null_free_item else caller_free_item fn))).
  { intros q. unfold wf_fields; simpl.
    unfold AC_CQUEUE_ALLOC_CHUNK_SZ, SIZE_MAX in *.
    destruct (Z.eqb_spec n 0); repeat split; lia. }
  destruct (malloc mem _) as [q|];
    destruct (Z.land flags OW =? 0); try discriminate;
    intros [= <-]; (split; [apply Hf | done]).
Qed.

Lemma wf_fields_pop (cq : ac_cqueue_t) :
  wf_fields cq ->
  wf_fields (ac_cqueue_pop cq).2
  /\ size (ac_cqueue_pop cq).2 = size cq
  /\ dyn_size (ac_cqueue_pop cq).2 = dyn_size cq.
Proof.
  unfold wf_fields, ac_cqueue_pop. intros (Hs & Hf & Hr & Hc).
  destruct (Z.eqb_spec (count cq) 0); [simpl; tauto |].
  destruct (Z.eqb_spec (front cq) (size cq));
    destruct (overwrite cq) eqn:How; simpl; rewrite ?How; simpl;
    repeat size_t_small; repeat split; try done; lia.
Qed.

Lemma wf_fields_push (mem : option (nat -> ptr)) (cq : ac_cqueue_t)
    (item : ptr) :
  wf_fields cq ->
  (dyn_size cq = true -> size cq + AC_CQUEUE_ALLOC_CHUNK_SZ <= SIZE_MAX) ->
  wf_fields (ac_cqueue_push mem cq item).1.2
  /\ size cq <= size (ac_cqueue_push mem cq item).1.2
     <= size cq + AC_CQUEUE_ALLOC_CHUNK_SZ
  /\ dyn_size (ac_cqueue_push mem cq item).1.2 = dyn_size cq.
Proof.
  unfold wf_fields, ac_cqueue_push, push_grow, push_track_front, realloc.
  unfold AC_CQUEUE_ALLOC_CHUNK_SZ.
  intros (Hs & Hf & Hr & Hc) Hdyn.
  destruct (dyn_size cq) eqn:Hd, (overwrite cq) eqn:How, mem as [heap|];
    simpl;
    repeat (case_cmp; simpl; rewrite ?Hd, ?How; simpl);
    repeat size_t_small;
    try (specialize (Hdyn eq_refl));
    repeat split; try done; try lia.
Qed.

Lemma wf_fields_step (cq : ac_cqueue_t) (o : op) :
  wf_fields cq ->
  (dyn_size cq = true -> size cq + AC_CQUEUE_ALLOC_CHUNK_SZ <= SIZE_MAX) ->
  wf_fields (step cq o).1.2
  /\ size (step cq o).1.2 <= size cq + AC_CQUEUE_ALLOC_CHUNK_SZ
  /\ dyn_size (step cq o).1.2 = dyn_size cq.
Proof.
  intros Hwf Hdyn. destruct o as [item mem|]; simpl.
  - pose proof (wf_fields_push mem cq item Hwf Hdyn) as (H1 & H2 & H3).
    destruct (ac_cqueue_push mem cq item) as [[rc cq'] tr]; simpl in *.
    split; [done |]. split; [lia | done].
  - pose proof (wf_fields_pop cq Hwf) as (H1 & H2 & H3).
    destruct (ac_cqueue_pop cq) as [p cq']; simpl in *.
    unfold AC_CQUEUE_ALLOC_CHUNK_SZ.
    split; [done |]. split; [lia | done].
Qed.

Lemma wf_pop (cq : ac_cqueue_t) :
  wf cq ->
  wf (ac_cqueue_pop cq).2
  /\ size (ac_cqueue_pop cq).2 = size cq
  /\ dyn_size (ac_cqueue_pop cq).2 = dyn_size cq
  /\ overwrite (ac_cqueue_pop cq).2 = overwrite cq.
Proof.
  unfold wf, ac_cqueue_pop. intros (Hs & Hf & Hr & Hc & Hl).
  destruct (Z.eqb_spec (count cq) 0); [simpl; tauto |].
  destruct (Z.eqb_spec (front cq) (size cq));
    destruct (overwrite cq) eqn:How; simpl; rewrite ?How; simpl;
    rewrite ?length_store;
    repeat size_t_small; repeat split; try done; lia.
Qed.

Lemma wf_push (mem : option (nat -> ptr)) (cq : ac_cqueue_t) (item : ptr) :
  wf cq ->
  (dyn_size cq = true ->
   (size cq + AC_CQUEUE_ALLOC_CHUNK_SZ) * sizeof_ptr <= SIZE_MAX) ->
  wf (ac_cqueue_push mem cq item).1.2
  /\ size cq <= size (ac_cqueue_push mem cq item).1.2
     <= size cq + AC_CQUEUE_ALLOC_CHUNK_SZ
  /\ (dyn_size cq = false -> size (ac_cqueue_push mem cq item).1.2 = size cq)
  /\ dyn_size (ac_cqueue_push mem cq item).1.2 = dyn_size cq
  /\ overwrite (ac_cqueue_push mem cq item).1.2 = overwrite cq.
Proof.
  unfold wf, ac_cqueue_push, push_grow, push_track_front.
  intros (Hs & Hf & Hr & Hc & Hl) Hdyn.
  destruct (dyn_size cq) eqn:Hd, (overwrite cq) eqn:How, mem as [heap|];
    try (specialize (Hdyn eq_refl));
    rewrite ?(realloc_grows heap (queue cq) (size cq)) by (done || lia);
    unfold realloc, AC_CQUEUE_ALLOC_CHUNK_SZ, sizeof_ptr in *;
    simpl;
    repeat (case_cmp; simpl; rewrite ?Hd, ?How; simpl);
    rewrite ?length_store, ?length_app, ?length_fresh_slots;
    repeat size_t_small;
    repeat split; try done; try lia.
Qed.

Lemma wf_step (cq : ac_cqueue_t) (o : op) :
  wf cq ->
  (dyn_size cq = true ->
   (size cq + AC_CQUEUE_ALLOC_CHUNK_SZ) * sizeof_ptr <= SIZE_MAX) ->
  wf (step cq o).1.2
  /\ size (step cq o).1.2 <= size cq + AC_CQUEUE_ALLOC_CHUNK_SZ
  /\ dyn_size (step cq o).1.2 = dyn_size cq
  /\ overwrite (step cq o).1.2 = overwrite cq.
Proof.
  intros Hwf Hdyn. destruct o as [item mem|]; simpl.
  - pose proof (wf_push mem cq item Hwf Hdyn) as (H1 & H2 & _ & H3 & H4).
    destruct (ac_cqueue_push mem cq item) as [[rc cq'] tr]; simpl in *.
    split; [done |]. split; [lia | done].
  - pose proof (wf_pop cq Hwf) as (H1 & H2 & H3 & H4).
    destruct (ac_cqueue_pop cq) as [p cq']; simpl in *.
    unfold AC_CQUEUE_ALLOC_CHUNK_SZ.
    split; [done |]. split; [lia | done].
Qed.

Lemma run_cons (cq : ac_cqueue_t) (o : op) (ops : list op) :
  (run cq (o :: ops)).1.2 = (run (step cq o).1.2 ops).1.2.
Proof.
  simpl. destruct (step cq o) as [[r cq1] tr1]; simpl.
  by destruct (run cq1 ops) as [[rs cq2] tr2].
Qed.

Lemma wf_run (ops : list op) (cq : ac_cqueue_t) :
  wf cq ->
  (dyn_size cq = true ->
   (size cq + AC_CQUEUE_ALLOC_CHUNK_SZ * Z.of_nat (length ops)) * sizeof_ptr
   <= SIZE_MAX) ->
  wf (run cq ops).1.2
  /\ dyn_size (run cq ops).1.2 = dyn_size cq
  /\ overwrite (run cq ops).1.2 = overwrite cq.
Proof.
  revert cq. induction ops as [|o ops IH]; intros cq Hwf Hdyn; [done |].
  rewrite run_cons.
  unfold AC_CQUEUE_ALLOC_CHUNK_SZ, sizeof_ptr in *. simpl length in Hdyn.
  destruct (wf_step cq o Hwf) as (H1 & H2 & H3 & H4).
  { unfold AC_CQUEUE_ALLOC_CHUNK_SZ, sizeof_ptr.
    intros Hd. specialize (Hdyn Hd). lia. }
  unfold AC_CQUEUE_ALLOC_CHUNK_SZ in *.
  destruct (IH _ H1) as (H5 & H6 & H7).
  { rewrite H3. intros Hd. specialize (Hdyn Hd). lia. }
  split; [done |]. split; congruence.
Qed.

Lemma wf_fields_run (ops : list op) (cq : ac_cqueue_t) :
  wf_fields cq ->
  (dyn_size cq = true ->
   size cq + AC_CQUEUE_ALLOC_CHUNK_SZ * Z.of_nat (length ops) <= SIZE_MAX) ->
  wf_fields (run cq ops).1.2.
Proof.
  revert cq. induction ops as [|o ops IH]; intros cq Hwf Hdyn; [done |].
  rewrite run_cons.
  unfold AC_CQUEUE_ALLOC_CHUNK_SZ in *. simpl length in Hdyn.
  destruct (wf_fields_step cq o Hwf) as (H1 & H2 & H3).
  { unfold AC_CQUEUE_ALLOC_CHUNK_SZ. intros Hd. specialize (Hdyn Hd). lia. }
  unfold AC_CQUEUE_ALLOC_CHUNK_SZ in *.
  apply IH; [done |].
  rewrite H3. intros Hd. specialize (Hdyn Hd). lia.
Qed.

(** ** Bounds of the indices *)

(** C8, as amended: in every state between two operations of a run that
    starts at [ac_cqueue_new], [0 <= front <= size] and
    [0 <= rear <= size]; [front], like [rear], may be equal to [size]
    (it is set back to 0 by the next [ac_cqueue_pop]). The run is short
    enough for the capacity of a growable queue to stay a [size_t]. *)
Theorem index_bounds_run (OW : Z) (obj : bool) (mem : option (nat -> ptr))
    (n : Z) (fn : ptr) (flags : Z) (cq0 : ac_cqueue_t) (ops : list op)
    (k : nat) :
  is_size_t n ->
  (n = 0 ->
   AC_CQUEUE_ALLOC_CHUNK_SZ * (Z.of_nat (length ops) + 1) <= SIZE_MAX) ->
  ac_cqueue_new OW obj mem n fn flags = Ok (inr cq0) ->
  index_bounds (run cq0 (take k ops)).1.2.
Proof.
  intros Hn Hlen Hnew.
  destruct (wf_fields_new _ _ _ _ _ _ _ Hn Hnew) as (Hwf & Hsz & Hdyn).
  destruct (wf_fields_run (take k ops) cq0 Hwf) as (_ & Hf & Hr & _).
  - rewrite Hsz, Hdyn. rewrite length_take.
    destruct (Z.eqb_spec n 0); [| discriminate].
    intros _. specialize (Hlen e).
    unfold AC_CQUEUE_ALLOC_CHUNK_SZ in *. lia.
  - by split.
Qed.

Lemma index_bounds_run_witness :
  is_size_t 2 /\
  (2 = 0 ->
   AC_CQUEUE_ALLOC_CHUNK_SZ * (Z.of_nat (length [Push 5 None; Pop; Pop]) + 1)
   <= SIZE_MAX) /\
  ac_cqueue_new 1 true (Some (fun _ => 9)) 2 NULL 0
  = Ok (inr (mk_cqueue [9; 9] 0 0 0 2 false false null_free_item)) /\
  index_bounds
    (run (mk_cqueue [9; 9] 0 0 0 2 false false null_free_item)
       (take 2 [Push 5 None; Pop; Pop])).1.2.
Proof.
  assert (H1 : is_size_t 2) by (unfold is_size_t, SIZE_MAX; lia).
  assert (H2 : 2 = 0 ->
    AC_CQUEUE_ALLOC_CHUNK_SZ * (Z.of_nat (length [Push 5 None; Pop; Pop]) + 1)
    <= SIZE_MAX) by lia.
  assert (H3 : ac_cqueue_new 1 true (Some (fun _ => 9)) 2 NULL 0
    = Ok (inr (mk_cqueue [9; 9] 0 0 0 2 false false null_free_item)))
    by reflexivity.
  split; [exact H1 |]. split; [exact H2 |]. split; [exact H3 |].
  exact (index_bounds_run 1 true (Some (fun _ => 9)) 2 NULL 0 _
           [Push 5 None; Pop; Pop] 2 H1 H2 H3).
Defined.

(** C8, as the specification states it, fails: after one push and one pop
    on a queue of one slot, [front] is equal to [size]. *)
Lemma index_bounds_strict_counterexample :
  ~ (forall (OW : Z) (heap : nat -> ptr) (n : Z) (fn : ptr) (flags : Z)
       (cq0 : ac_cqueue_t) (ops : list op),
        is_size_t n ->
        (n = 0 ->
         AC_CQUEUE_ALLOC_CHUNK_SZ * (Z.of_nat (length ops) + 1) <= SIZE_MAX) ->
        ac_cqueue_new OW true (Some heap) n fn flags = Ok (inr cq0) ->
        index_bounds_strict (run cq0 ops).1.2).
Proof.
  intros H.
  specialize (H 1 (fun _ => 9) 1 NULL 0
                (mk_cqueue [9] 0 0 0 1 false false null_free_item)
                [Push 5 None; Pop]).
  assert (Hb : index_bounds_strict
                 (run (mk_cqueue [9] 0 0 0 1 false false null_free_item)
                    [Push 5 None; Pop]).1.2).
  { apply H; [unfold is_size_t, SIZE_MAX; lia | lia | reflexivity]. }
  vm_compute in Hb. destruct Hb as [[_ Hlt] _]. discriminate Hlt.
Qed.

(** ** ac_cqueue_new *)

Lemma stray_bit_iff (flags ow : Z) :
  Z.land flags (Z.lnot ow) <> 0 <->
  exists i, 0 <= i /\ Z.testbit flags i = true /\ Z.testbit ow i = false.
Proof.
  split.
  - intros Hne.
    assert (Hbit : exists i, 0 <= i
                     /\ Z.testbit (Z.land flags (Z.lnot ow)) i = true).
    { destruct (Z.lt_trichotomy (Z.land flags (Z.lnot ow)) 0)
        as [Hneg | [Hz | Hpos]]; [| done |].
      - exists (Z.log2 (Z.abs (Z.land flags (Z.lnot ow))) + 1).
        pose proof (Z.log2_nonneg (Z.abs (Z.land flags (Z.lnot ow)))).
        split; [lia |]. apply Z.bits_iff_neg; [lia | done].
      - exists (Z.log2 (Z.land flags (Z.lnot ow))).
        split; [apply Z.log2_nonneg | by apply Z.bit_log2]. }
    destruct Hbit as (i & Hi & Hb). exists i.
    rewrite Z.land_spec, Z.lnot_spec in Hb by done.
    apply andb_true_iff in Hb as [Hb1 Hb2].
    apply negb_true_iff in Hb2. done.
  - intros (i & Hi & Hf & Ho) Hz.
    assert (Hb : Z.testbit (Z.land flags (Z.lnot ow)) i = true).
    { rewrite Z.land_spec, Z.lnot_spec, Hf, Ho by done. done. }
    rewrite Hz, Z.bits_0 in Hb. discriminate.
Qed.

(** C7, as amended: [ac_cqueue_new] fails, with [EINVAL], exactly when
    [flags] has a bit set that is not a bit of [AC_CQUEUE_OVERWRITE],
    whatever the calls of [malloc] would do. Otherwise, when both calls of
    [malloc] succeed and the byte count [n * sizeof(void * )] of the array
    is a [size_t], it returns a queue with [front = rear = count = 0]; a
    requested size of 0 gives a growable queue of 16 slots, a positive one
    a fixed queue of that size; with the overwrite flag every slot is
    [NULL]. *)
Theorem new_result (OW : Z) (obj : bool) (mem : option (nat -> ptr))
    (heap : nat -> ptr) (n : Z) (fn : ptr) (flags : Z) :
  (ac_cqueue_new OW obj mem n fn flags = Ok (inl EINVAL) <->
   exists i, 0 <= i /\ Z.testbit flags i = true /\ Z.testbit OW i = false)
  /\
  ((forall i, 0 <= i -> Z.testbit flags i = true -> Z.testbit OW i = true) ->
   0 <= n -> n * sizeof_ptr <= SIZE_MAX ->
   exists cq,
     ac_cqueue_new OW true (Some heap) n fn flags = Ok (inr cq)
     /\ front cq = 0 /\ rear cq = 0 /\ count cq = 0
     /\ length (queue cq) = Z.to_nat (size cq)
     /\ (n = 0 -> dyn_size cq = true /\ size cq = 16)
     /\ (0 < n -> dyn_size cq = false /\ size cq = n)
     /\ (Z.land flags OW <> 0 ->
         overwrite cq = true
         /\ queue cq = replicate (Z.to_nat (size cq)) NULL)
     /\ (Z.land flags OW = 0 ->
         overwrite cq = false /\ queue cq = fresh_slots heap (size cq))).
Proof.
  split.
  - rewrite <- stray_bit_iff. unfold ac_cqueue_new.
    destruct (Z.eqb_spec (Z.land flags (Z.lnot OW)) 0) as [He | Hne]; simpl.
    + split; [| done].
      destruct obj; [| discriminate]. simpl.
      destruct (malloc mem _), (Z.land flags OW =? 0); discriminate.
    + done.
  - intros Hall H0 Hmax.
    assert (Hz : Z.land flags (Z.lnot OW) = 0).
    { destruct (Z.eq_dec (Z.land flags (Z.lnot OW)) 0) as [|Hne]; [done |].
      apply stray_bit_iff in Hne as (i & Hi & Hf & Ho).
      rewrite (Hall i Hi Hf) in Ho. discriminate. }
    rewrite (new_allocated OW heap n fn flags H0 Hmax Hz).
    eexists. split; [reflexivity |]. simpl.
    assert (Hlen : length
      (if Z.land flags OW =? 0
       then fresh_slots heap (if n =? 0 then AC_CQUEUE_ALLOC_CHUNK_SZ else n)
       else memset0
              (fresh_slots heap (if n =? 0 then AC_CQUEUE_ALLOC_CHUNK_SZ else n)))
      = Z.to_nat (if n =? 0 then AC_CQUEUE_ALLOC_CHUNK_SZ else n)).
    { destruct (Z.land flags OW =? 0);
        rewrite ?length_memset0; apply length_fresh_slots. }
    split; [done |]. split; [done |]. split; [done |].
    split; [exact Hlen |].
    split; [by intros -> |].
    split; [intros Hpos; by destruct (Z.eqb_spec n 0); [lia |] |].
    destruct (Z.eqb_spec (Z.land flags OW) 0) as [He | Hne]; split; try done.
    intros _. split; [done |].
    unfold memset0. by rewrite length_fresh_slots.
Qed.

Lemma new_result_witness :
  (forall i, 0 <= i -> Z.testbit 1 i = true -> Z.testbit 1 i = true)
  /\ 0 <= 3 /\ 3 * sizeof_ptr <= SIZE_MAX
  /\ ac_cqueue_new 1 true (Some (fun _ => 9)) 3 5 1
     = Ok (inr (mk_cqueue [NULL; NULL; NULL] 0 0 0 3 false true
                  (caller_free_item 5)))
  /\ ac_cqueue_new 1 true (Some (fun _ => 9)) 0 NULL 0
     = Ok (inr (mk_cqueue (replicate 16 9) 0 0 0 16 true false
                  null_free_item))
  /\ ac_cqueue_new 1 true (Some (fun _ => 9)) 3 5 2 = Ok (inl EINVAL)
  /\ exists cq,
       ac_cqueue_new 1 true (Some (fun _ => 9)) 3 5 1 = Ok (inr cq)
       /\ front cq = 0 /\ rear cq = 0 /\ count cq = 0
       /\ length (queue cq) = Z.to_nat (size cq)
       /\ (3 = 0 -> dyn_size cq = true /\ size cq = 16)
       /\ (0 < 3 -> dyn_size cq = false /\ size cq = 3)
       /\ (Z.land 1 1 <> 0 ->
           overwrite cq = true
           /\ queue cq = replicate (Z.to_nat (size cq)) NULL)
       /\ (Z.land 1 1 = 0 ->
           overwrite cq = false
           /\ queue cq = fresh_slots (fun _ => 9) (size cq)).
Proof.
  assert (H1 : forall i, 0 <= i -> Z.testbit 1 i = true -> Z.testbit 1 i = true)
    by (intros i _ Hi; exact Hi).
  assert (H2 : 0 <= 3) by lia.
  assert (H3 : 3 * sizeof_ptr <= SIZE_MAX)
    by (unfold sizeof_ptr, SIZE_MAX; lia).
  split; [exact H1 |]. split; [exact H2 |]. split; [exact H3 |].
  split; [reflexivity |]. split; [reflexivity |]. split; [reflexivity |].
  exact (proj2 (new_result 1 true None (fun _ => 9) 3 5 1) H1 H2 H3).
Defined.

(** C7, as the specification states it, fails. When the first [malloc]
    returns [NULL] no queue is returned although the flags are valid: the
    assignment to [cqueue->size] goes through [NULL]. And for a requested
    size of [2 ^ 61 + 1] the byte count wraps around to 8: the queue
    returned has one slot, not [size] slots. *)
Lemma new_result_counterexample :
  ~ (forall (OW : Z) (obj : bool) (mem : option (nat -> ptr)) (n : Z)
       (fn : ptr) (flags : Z),
        is_size_t n ->
        (forall i, 0 <= i -> Z.testbit flags i = true ->
                   Z.testbit OW i = true) ->
        exists cq, ac_cqueue_new OW obj mem n fn flags = Ok (inr cq))
  /\
  ~ (forall (OW : Z) (heap : nat -> ptr) (n : Z) (fn : ptr) (flags : Z),
        is_size_t n ->
        (forall i, 0 <= i -> Z.testbit flags i = true ->
                   Z.testbit OW i = true) ->
        exists cq,
          ac_cqueue_new OW true (Some heap) n fn flags = Ok (inr cq)
          /\ length (queue cq) = Z.to_nat (size cq)
          /\ (0 < n -> dyn_size cq = false /\ size cq = n)).
Proof.
  split.
  - intros H.
    destruct (H 1 false (Some (fun _ => 9)) 3 NULL 0) as (cq & Hnew).
    + unfold is_size_t, SIZE_MAX. lia.
    + intros i _ Hi. rewrite Z.bits_0 in Hi. discriminate.
    + discriminate Hnew.
  - intros H.
    destruct (H 1 (fun _ => 9) 2305843009213693953 NULL 1)
      as (cq & Hnew & Hlen & _).
    + unfold is_size_t, SIZE_MAX. lia.
    + intros i _ Hi. exact Hi.
    + vm_compute in Hnew. injection Hnew as <-.
      cbn [queue size length] in Hlen. lia.
Qed.

(** ** Changes of the capacity *)

(** [size] changes only in a push on a full growable queue, by 16. *)
Lemma push_size_change (mem : option (nat -> ptr)) (cq : ac_cqueue_t)
    (item : ptr) :
  size (ac_cqueue_push mem cq item).1.2 = size cq
  \/ (count cq = size cq /\ dyn_size cq = true
      /\ size (ac_cqueue_push mem cq item).1.2
         = to_size_t (size cq + AC_CQUEUE_ALLOC_CHUNK_SZ)).
Proof.
  destruct cq as [q f r c n dyn ow fi].
  unfold ac_cqueue_push, push_grow, push_track_front, realloc.
  cbn [count size dyn_size overwrite].
  destruct (Z.eqb_spec c n) as [He | Hne], dyn, ow, mem as [heap|]; simpl;
    repeat (case_cmp; simpl); auto.
Qed.

Lemma pop_size (cq : ac_cqueue_t) : size (ac_cqueue_pop cq).2 = size cq.
Proof.
  destruct cq as [q f r c n dyn ow fi]. unfold ac_cqueue_pop.
  cbn [count front size].
  destruct (c =? 0); [done |].
  by destruct (f =? n), ow.
Qed.

(** ** Failure of ac_cqueue_push *)

Lemma push_fails_iff (mem : option (nat -> ptr)) (cq : ac_cqueue_t)
    (item : ptr) :
  (ac_cqueue_push mem cq item).1.1 <> 0 <->
  count cq = size cq /\
  (dyn_size cq = false /\ overwrite cq = false
   \/ dyn_size cq = true /\ mem = None).
Proof.
  unfold ac_cqueue_push, push_grow, realloc.
  destruct (Z.eqb_spec (count cq) (size cq)) as [He | Hne],
    (dyn_size cq), (overwrite cq), mem as [heap|]; simpl;
    intuition (try discriminate; try lia; auto).
Qed.

(** C6: [ac_cqueue_push] fails exactly on a full queue that is neither
    growable nor in overwrite mode, and on a full growable queue when
    [realloc] fails. When it fails it returns [-1], the queue is the one
    it was given, in every field, and [free_item] has not been called. *)
Theorem push_failure_no_mutation (mem : option (nat -> ptr))
    (cq : ac_cqueue_t) (item : ptr) :
  (ac_cqueue_push mem cq item).1.1 <> 0
  \/ (count cq = size cq
      /\ (dyn_size cq = false /\ overwrite cq = false
          \/ dyn_size cq = true /\ mem = None)) ->
  (ac_cqueue_push mem cq item).1.1 = -1
  /\ (ac_cqueue_push mem cq item).1.2 = cq
  /\ (ac_cqueue_push mem cq item).2 = []
  /\ count cq = size cq
  /\ (dyn_size cq = false /\ overwrite cq = false
      \/ dyn_size cq = true /\ mem = None).
Proof.
  intros Hfail.
  assert (Hrc : (ac_cqueue_push mem cq item).1.1 <> 0).
  { destruct Hfail as [Hrc | Hwhy]; [done | by apply push_fails_iff]. }
  assert (Hwhy := proj1 (push_fails_iff mem cq item) Hrc).
  clear Hfail. revert Hrc. unfold ac_cqueue_push.
  destruct ((count cq =? size cq) && negb (dyn_size cq)
            && negb (overwrite cq)); [by simpl |].
  destruct (push_grow mem cq); simpl; [done | by intros _].
Qed.

Lemma push_failure_no_mutation_witness :
  ((ac_cqueue_push None (mk_cqueue [5; 6] 0 2 2 2 false false null_free_item) 7).1.1
   <> 0
   \/ (count (mk_cqueue [5; 6] 0 2 2 2 false false null_free_item)
       = size (mk_cqueue [5; 6] 0 2 2 2 false false null_free_item)
       /\ (dyn_size (mk_cqueue [5; 6] 0 2 2 2 false false null_free_item)
           = false
           /\ overwrite (mk_cqueue [5; 6] 0 2 2 2 false false null_free_item)
              = false
           \/ dyn_size (mk_cqueue [5; 6] 0 2 2 2 false false null_free_item)
              = true
              /\ @None (nat -> ptr) = None)))
  /\ ac_cqueue_push None
       (mk_cqueue [5; 6] 0 2 2 2 false false null_free_item) 7
     = (-1, mk_cqueue [5; 6] 0 2 2 2 false false null_free_item, []).
Proof.
  assert (H : (ac_cqueue_push None
                 (mk_cqueue [5; 6] 0 2 2 2 false false null_free_item) 7).1.1
              <> 0) by (vm_compute; discriminate).
  split; [left; exact H |].
  destruct (push_failure_no_mutation None
      (mk_cqueue [5; 6] 0 2 2 2 false false null_free_item) 7 (or_introl H))
    as (Hrc & Hcq & Htr & _).
  destruct (ac_cqueue_push None
      (mk_cqueue [5; 6] 0 2 2 2 false false null_free_item) 7)
    as [[rc cq'] tr].
  simpl in Hrc, Hcq, Htr. by rewrite Hrc, Hcq, Htr.
Defined.

(** ** ac_cqueue_pop without overwrite *)

(** C9: on a queue that is not in overwrite mode and not empty,
    [ac_cqueue_pop] returns the item at [front] ([front] taken as 0 when
    it is equal to [size]); the array is unchanged, so the item is still
    in its slot; [count] loses one, [front] is one past the slot read, and
    no other field changes. *)
Theorem pop_keeps_slot (cq : ac_cqueue_t) :
  wf cq ->
  overwrite cq = false ->
  count cq <> 0 ->
  let f := if front cq =? size cq then 0 else front cq in
  ac_cqueue_pop cq =
    (load (queue cq) f,
     mk_cqueue (queue cq) (f + 1) (rear cq) (count cq - 1) (size cq)
               (dyn_size cq) (overwrite cq) (free_item cq))
  /\ load (queue (ac_cqueue_pop cq).2) f = (ac_cqueue_pop cq).1.
Proof.
  intros (Hs & Hf & Hr & Hc & Hl) How Hne f.
  assert (Hpop : ac_cqueue_pop cq =
    (load (queue cq) f,
     mk_cqueue (queue cq) (f + 1) (rear cq) (count cq - 1) (size cq)
               (dyn_size cq) (overwrite cq) (free_item cq))).
  { unfold ac_cqueue_pop, f.
    destruct (Z.eqb_spec (count cq) 0); [done |].
    destruct (Z.eqb_spec (front cq) (size cq)); simpl; rewrite How; simpl;
      unfold set_front, set_count; simpl;
      repeat size_t_small; by rewrite ?How. }
  split; [exact Hpop |]. by rewrite Hpop.
Qed.

Lemma pop_keeps_slot_witness :
  wf (mk_cqueue [5; 6] 0 2 2 2 false false null_free_item)
  /\ ac_cqueue_pop (mk_cqueue [5; 6] 0 2 2 2 false false null_free_item)
     = (5, mk_cqueue [5; 6] 1 2 1 2 false false null_free_item).
Proof.
  assert (H : wf (mk_cqueue [5; 6] 0 2 2 2 false false null_free_item)).
  { unfold wf, SIZE_MAX; simpl. lia. }
  split; [exact H |].
  exact (proj1 (pop_keeps_slot
     (mk_cqueue [5; 6] 0 2 2 2 false false null_free_item)
     H eq_refl ltac:(simpl; lia))).
Defined.

(** ** Runs of pushes and of pops over a span of the array *)

Lemma push_no_overwrite (mem : option (nat -> ptr)) (q : list ptr)
    (f r c n : Z) (dyn : bool) (fi : free_fn) (x : ptr) :
  0 <= r < n -> 0 <= c < n -> n <= SIZE_MAX ->
  ac_cqueue_push mem (mk_cqueue q f r c n dyn false fi) x
  = (0, mk_cqueue (store q r x) f (r + 1) (c + 1) n dyn false fi, []).
Proof.
  intros Hr Hc Hn.
  unfold ac_cqueue_push, push_grow, push_track_front; simpl.
  destruct (Z.eqb_spec c n); [lia |]. simpl.
  destruct (Z.eqb_spec r n); [lia |]. simpl.
  destruct (Z.ltb_spec c n); [| lia]. simpl.
  unfold set_count, set_rear, set_queue; simpl.
  by repeat size_t_small.
Qed.

(** Pushing [items] into the free slots [suf] that follow [pre]. *)
Lemma push_all_fill (mem : option (nat -> ptr)) (items pre suf : list ptr)
    (f r c n : Z) (dyn : bool) (fi : free_fn) :
  r = Z.of_nat (length pre) ->
  n = Z.of_nat (length (pre ++ suf)) ->
  (length items <= length suf)%nat ->
  0 <= c -> c + Z.of_nat (length items) <= n -> n <= SIZE_MAX ->
  push_all mem (mk_cqueue (pre ++ suf) f r c n dyn false fi) items
  = (replicate (length items) 0,
     mk_cqueue (pre ++ items ++ drop (length items) suf) f
               (r + Z.of_nat (length items)) (c + Z.of_nat (length items))
               n dyn false fi,
     []).
Proof.
  revert pre suf r c.
  induction items as [|x items IH]; intros pre suf r c Hr Hn Hlen Hc Hcn Hmax.
  - simpl. rewrite drop_0, !Z.add_0_r. done.
  - destruct suf as [|s suf]; [simpl in Hlen; lia |].
    simpl in Hlen. rewrite length_app in Hn. simpl in Hn, Hcn.
    cbn [push_all].
    rewrite push_no_overwrite by lia.
    subst r. rewrite store_middle.
    replace (pre ++ x :: suf) with ((pre ++ [x]) ++ suf)
      by (by rewrite <- app_assoc).
    rewrite (IH (pre ++ [x]) suf);
      rewrite ?length_app; simpl; try lia.
    rewrite <- app_assoc. simpl.
    do 3 f_equal; lia.
Qed.

Lemma pop_nonempty (q : list ptr) (f r c n : Z) (dyn ow : bool)
    (fi : free_fn) :
  0 <= f < n -> 0 < c <= SIZE_MAX -> n <= SIZE_MAX ->
  ac_cqueue_pop (mk_cqueue q f r c n dyn ow fi)
  = (load q f,
     mk_cqueue (if ow then store q f NULL else q) (f + 1) r (c - 1) n
               dyn ow fi).
Proof.
  intros Hf Hc Hn. unfold ac_cqueue_pop; simpl.
  destruct (Z.eqb_spec c 0); [lia |].
  destruct (Z.eqb_spec f n); [lia |]. simpl.
  unfold set_front, set_queue; destruct ow; simpl;
    by repeat size_t_small.
Qed.

(** Popping the span [items] that starts at [front]: the items come out
    in order; in overwrite mode their slots are left [NULL]. *)
Lemma pop_n_span (items pre suf : list ptr) (f r c n : Z) (dyn ow : bool)
    (fi : free_fn) :
  f = Z.of_nat (length pre) ->
  f + Z.of_nat (length items) <= n -> n <= SIZE_MAX ->
  Z.of_nat (length items) <= c <= SIZE_MAX ->
  pop_n (length items) (mk_cqueue (pre ++ items ++ suf) f r c n dyn ow fi)
  = (items,
     mk_cqueue (pre ++ (if ow then replicate (length items) NULL else items)
                    ++ suf)
               (f + Z.of_nat (length items)) r (c - Z.of_nat (length items))
               n dyn ow fi).
Proof.
  revert pre f c.
  induction items as [|x items IH]; intros pre f c Hf Hfn Hn Hc.
  - simpl. rewrite Z.add_0_r, Z.sub_0_r. by destruct ow.
  - simpl in Hfn, Hc. cbn [pop_n length].
    rewrite pop_nonempty by lia.
    subst f. rewrite <- app_comm_cons, load_middle, store_middle.
    replace (if ow then pre ++ NULL :: items ++ suf
             else pre ++ x :: items ++ suf)
      with ((pre ++ [if ow then NULL else x]) ++ items ++ suf)
      by (destruct ow; by rewrite <- app_assoc).
    rewrite (IH (pre ++ [if ow then NULL else x]));
      rewrite ?length_app; simpl; try lia.
    rewrite <- app_assoc.
    destruct ow; simpl; do 2 f_equal; lia.
Qed.

(** ** A fixed queue in overwrite mode, pushes first *)


Lemma pop_front_at_size (q : list ptr) (r c n : Z) (dyn ow : bool)
    (fi : free_fn) :
  0 < n -> c <> 0 ->
  ac_cqueue_pop (mk_cqueue q n r c n dyn ow fi)
  = ac_cqueue_pop (mk_cqueue q 0 r c n dyn ow fi).
Proof.
  intros Hn Hc. unfold ac_cqueue_pop. cbn [count front size].
  rewrite Z.eqb_refl.
  destruct (Z.eqb_spec 0 n); [lia |].
  destruct (Z.eqb_spec c 0); [done |]. reflexivity.
Qed.







Lemma cqueue_eq (q q' : list ptr) (f f' r r' c c' n n' : Z) (dyn ow : bool)
    (fi : free_fn) :
  q = q' -> f = f' -> r = r' -> c = c' -> n = n' ->
  mk_cqueue q f r c n dyn ow fi = mk_cqueue q' f' r' c' n' dyn ow fi.
Proof. by intros -> -> -> -> ->. Qed.






Lemma pop_empty (cq : ac_cqueue_t) :
  count cq = 0 -> ac_cqueue_pop cq = (NULL, cq).
Proof. intros Hc. unfold ac_cqueue_pop. by rewrite Hc. Qed.




(** ** Growth of a queue in overwrite mode *)

(** On a full queue that is growable and in overwrite mode, when
    [realloc] succeeds, [ac_cqueue_push] returns 0, [size] has gained 16
    and [count] one: the growth comes first. [free_item] is called exactly
    when the slot that is written, in the array as grown, holds something
    else than [NULL]. *)
Lemma push_grows_before_overwrite (heap : nat -> ptr) (cq : ac_cqueue_t)
    (item : ptr) :
  wf cq ->
  dyn_size cq = true ->
  overwrite cq = true ->
  count cq = size cq ->
  (size cq + AC_CQUEUE_ALLOC_CHUNK_SZ) * sizeof_ptr <= SIZE_MAX ->
  let grown := queue cq ++ fresh_slots heap AC_CQUEUE_ALLOC_CHUNK_SZ in
  let res := ac_cqueue_push (Some heap) cq item in
  res.1.1 = 0
  /\ size res.1.2 = size cq + 16
  /\ count res.1.2 = count cq + 1
  /\ rear res.1.2 = rear cq + 1
  /\ queue res.1.2 = store grown (rear cq) item
  /\ res.2 = (if load grown (rear cq) =? NULL then []
              else [call_free cq (load grown (rear cq))])
  /\ (load grown (rear cq) = NULL -> res.2 = []).
Proof.
  intros (Hs & Hf & Hr & Hc & Hl) Hdyn How Hfull Hmax grown res.
  assert (Hres : res =
    (0,
     push_track_front
       (mk_cqueue (store grown (rear cq) item) (front cq) (rear cq + 1)
          (count cq + 1) (size cq + 16) true true (free_item cq)),
     if load grown (rear cq) =? NULL then []
     else [call_free cq (load grown (rear cq))])).
  { unfold res, ac_cqueue_push, push_grow.
    rewrite (realloc_grows heap (queue cq) (size cq)) by (done || lia).
    fold grown. clearbody grown.
    unfold AC_CQUEUE_ALLOC_CHUNK_SZ, sizeof_ptr in *.
    rewrite Hdyn, How, Hfull, Z.eqb_refl. simpl.
    rewrite ?Hdyn, ?How. repeat size_t_small.
    destruct (Z.eqb_spec (rear cq) (size cq + 16)); [lia |]. simpl.
    rewrite ?How. repeat size_t_small. rewrite ?Hfull.
    destruct (Z.ltb_spec (size cq) (size cq + 16)); [| lia]. simpl.
    repeat size_t_small.
    unfold call_free, set_count, set_rear, set_queue, set_size. simpl.
    rewrite Hdyn, How.
    by destruct (load _ (rear cq) =? NULL). }
  rewrite Hres. cbn [fst snd].
  assert (Htrack : forall c, size (push_track_front c) = size c
                             /\ count (push_track_front c) = count c
                             /\ rear (push_track_front c) = rear c
                             /\ queue (push_track_front c) = queue c).
  { intros c. unfold push_track_front.
    destruct (overwrite c && (front c <? rear c)); [| done].
    simpl. by destruct (rear c =? size c). }
  destruct (Htrack (mk_cqueue (store grown (rear cq) item) (front cq)
                      (rear cq + 1) (count cq + 1) (size cq + 16) true true
                      (free_item cq))) as (-> & -> & -> & ->).
  cbn [size count rear queue].
  repeat split; try done.
  by intros ->.
Qed.

(** With 16 items pushed, one popped and one more pushed, a growable queue
    in overwrite mode is full, its oldest item, 102, in slot 1, where
    [rear] is. The next push grows the array and still finds slot 1
    occupied. *)
Lemma push_grows_before_overwrite_wrapped :
  wf (mk_cqueue (117 :: seqZ 102 15) 1 1 16 16 true true null_free_item)
  /\ (ac_cqueue_push (Some (fun _ => NULL))
        (mk_cqueue (117 :: seqZ 102 15) 1 1 16 16 true true null_free_item)
        118).2
     = [Call null_free_item 102].
Proof.
  assert (H : wf (mk_cqueue (117 :: seqZ 102 15) 1 1 16 16 true true
                    null_free_item)).
  { unfold wf, SIZE_MAX; simpl. lia. }
  split; [exact H |].
  destruct (push_grows_before_overwrite (fun _ => NULL) _ 118 H eq_refl
              eq_refl eq_refl)
    as (_ & _ & _ & _ & _ & Htrace & _).
  - unfold SIZE_MAX, AC_CQUEUE_ALLOC_CHUNK_SZ, sizeof_ptr; simpl. lia.
  - exact Htrace.
Defined.

(** ** A growable queue, pushes first *)

Lemma growable_push (heap : nat -> ptr) (fi : free_fn) (pre suf : list ptr)
    (x : ptr) :
  Z.of_nat (length (pre ++ suf)) + AC_CQUEUE_ALLOC_CHUNK_SZ <= SIZE_MAX ->
  (Z.of_nat (length pre) + AC_CQUEUE_ALLOC_CHUNK_SZ) * sizeof_ptr
  <= SIZE_MAX ->
  exists suf',
    ac_cqueue_push (Some heap) (filled true fi pre suf) x
    = (0, filled true fi (pre ++ [x]) suf', [])
    /\ Z.of_nat (length suf') <= Z.max 15 (Z.of_nat (length suf) - 1).
Proof.
  intros Hmax Hbytes. unfold filled.
  destruct suf as [|s suf].
  - exists (heap <$> seq 1 15). rewrite app_nil_r in *. split.
    + unfold ac_cqueue_push, push_grow, push_track_front.
      cbn [count size dyn_size overwrite negb andb queue].
      rewrite Z.eqb_refl. cbn [andb].
      rewrite realloc_grows by (done || lia).
      unfold AC_CQUEUE_ALLOC_CHUNK_SZ in *.
      change (fresh_slots heap 16) with (heap 0%nat :: (heap <$> seq 1 15)).
      cbn [set_size set_queue count size dyn_size overwrite rear front queue
           free_item].
      size_t_small.
      destruct (Z.eqb_spec (Z.of_nat (length pre))
                  (Z.of_nat (length pre) + 16)); [lia |].
      cbn [set_size set_queue set_rear set_count count size dyn_size
           overwrite rear front queue free_item andb].
      rewrite store_middle. repeat size_t_small.
      destruct (Z.ltb_spec (Z.of_nat (length pre))
                  (Z.of_nat (length pre) + 16)); [| lia].
      cbn [set_size set_queue set_rear set_count count size dyn_size
           overwrite rear front queue free_item andb].
      f_equal. f_equal. apply cqueue_eq.
      * by rewrite <- app_assoc.
      * done.
      * rewrite length_app. simpl. lia.
      * rewrite length_app. simpl. lia.
      * rewrite !length_app, length_fmap, length_seq. simpl. lia.
    + rewrite length_fmap, length_seq. simpl. lia.
  - exists suf. unfold AC_CQUEUE_ALLOC_CHUNK_SZ in *. split.
    + rewrite length_app in *. simpl in Hmax.
      rewrite push_no_overwrite by (simpl; lia).
      rewrite store_middle. f_equal. f_equal. apply cqueue_eq.
      * by rewrite <- app_assoc.
      * done.
      * rewrite length_app. simpl. lia.
      * rewrite length_app. simpl. lia.
      * rewrite !length_app. simpl. lia.
    + simpl. lia.
Qed.

Lemma growable_push_all (heap : nat -> ptr) (fi : free_fn)
    (items pre suf : list ptr) :
  (length suf <= 16)%nat ->
  (Z.of_nat (length pre) + Z.of_nat (length items)
   + AC_CQUEUE_ALLOC_CHUNK_SZ) * sizeof_ptr <= SIZE_MAX ->
  exists suf',
    push_all (Some heap) (filled true fi pre suf) items
    = (replicate (length items) 0, filled true fi (pre ++ items) suf', [])
    /\ Z.of_nat (length ((pre ++ items) ++ suf')) <= SIZE_MAX.
Proof.
  revert pre suf. unfold AC_CQUEUE_ALLOC_CHUNK_SZ, sizeof_ptr.
  induction items as [|x items IH]; intros pre suf Hsuf Hmax.
  - exists suf. rewrite app_nil_r. simpl in *. split; [done |].
    rewrite length_app. lia.
  - simpl length in Hmax.
    destruct (growable_push heap fi pre suf x) as (suf1 & Hpush & Hlen1);
      [unfold AC_CQUEUE_ALLOC_CHUNK_SZ; rewrite length_app; lia
      | unfold AC_CQUEUE_ALLOC_CHUNK_SZ, sizeof_ptr; lia |].
    destruct (IH (pre ++ [x]) suf1) as (suf2 & Hall & Hlen2);
      [lia | rewrite length_app; simpl; lia |].
    exists suf2. cbn [push_all]. rewrite Hpush, Hall.
    rewrite <- (app_assoc pre [x] items). split; [done |].
    rewrite !length_app in *. simpl in *. lia.
Qed.

(** X5: on a new growable queue, when [realloc] succeeds each time, the
    items pushed all go in and the pops return them in the order of their
    insertion; the capacity has grown by steps of 16 on the way. *)
Lemma growable_queue_fifo (OW : Z) (heap heap' : nat -> ptr) (fn : ptr)
    (items : list ptr) :
  AC_CQUEUE_ALLOC_CHUNK_SZ * (Z.of_nat (length items) + 1) <= SIZE_MAX ->
  exists cq0,
    ac_cqueue_new OW true (Some heap) 0 fn 0 = Ok (inr cq0)
    /\ (push_all (Some heap') cq0 items).1.1 = replicate (length items) 0
    /\ (push_all (Some heap') cq0 items).2 = []
    /\ (pop_n (length items) (push_all (Some heap') cq0 items).1.2).1
       = items
    /\ count (pop_n (length items) (push_all (Some heap') cq0 items).1.2).2
       = 0.
Proof.
  unfold AC_CQUEUE_ALLOC_CHUNK_SZ. intros Hmax.
  rewrite new_allocated
    by (rewrite ?Z.land_0_l; unfold sizeof_ptr, SIZE_MAX; lia || done).
  rewrite Z.land_0_l. simpl.
  eexists. split; [reflexivity |].
  set (fi := if fn =? NULL then null_free_item else caller_free_item fn).
  change (mk_cqueue (fresh_slots heap AC_CQUEUE_ALLOC_CHUNK_SZ) 0 0 0
            AC_CQUEUE_ALLOC_CHUNK_SZ true false fi)
    with (filled true fi [] (fresh_slots heap AC_CQUEUE_ALLOC_CHUNK_SZ)).
  destruct (growable_push_all heap' fi items []
              (fresh_slots heap AC_CQUEUE_ALLOC_CHUNK_SZ))
    as (suf & Hall & Hlen).
  { rewrite length_fresh_slots. unfold AC_CQUEUE_ALLOC_CHUNK_SZ. lia. }
  { unfold AC_CQUEUE_ALLOC_CHUNK_SZ, sizeof_ptr, SIZE_MAX in *.
    change (Z.of_nat (length (@nil ptr))) with 0. lia. }
  rewrite app_nil_l in *. rewrite Hall. cbn [fst snd].
  split; [done |]. split; [done |].
  unfold filled.
  pose proof (pop_n_span items [] suf 0 (Z.of_nat (length items))
                (Z.of_nat (length items)) (Z.of_nat (length (items ++ suf)))
                true false fi) as Hpop.
  rewrite !app_nil_l in Hpop. rewrite Hpop; cbn [fst snd count].
  - split; [done | lia].
  - done.
  - rewrite length_app. lia.
  - done.
  - lia.
Qed.

(** * Where the code departs from the specification *)

(** C1: [front] is not at the oldest live item after a push on a queue in
    overwrite mode that is not full. On a new queue of 3 slots, the push
    of 11 writes slot 0 and moves [front] to 1; the pop that follows
    returns [NULL], not 11. And after 3 pushes, 3 pops and 4 pushes (of
    14, 15, 16 and 17, the last one evicting 14), a pop returns 17, the
    newest item, not 15, the oldest. *)
Theorem front_misses_oldest :
  ac_cqueue_new 1 true (Some (fun _ => 9)) 3 NULL 1
  = Ok (inr (mk_cqueue [NULL; NULL; NULL] 0 0 0 3 false true null_free_item))
  /\ ac_cqueue_push None
       (mk_cqueue [NULL; NULL; NULL] 0 0 0 3 false true null_free_item) 11
     = (0, mk_cqueue [11; NULL; NULL] 1 1 1 3 false true null_free_item, [])
  /\ ac_cqueue_pop
       (mk_cqueue [11; NULL; NULL] 1 1 1 3 false true null_free_item)
     = (NULL, mk_cqueue [11; NULL; NULL] 2 1 0 3 false true null_free_item)
  /\ run (mk_cqueue [NULL; NULL; NULL] 0 0 0 3 false true null_free_item)
       (pushes [11; 12; 13] ++ [Pop; Pop; Pop]
        ++ pushes [14; 15; 16; 17] ++ [Pop])
     = ([RPush 0; RPush 0; RPush 0; RPop 11; RPop 12; RPop 13;
         RPush 0; RPush 0; RPush 0; RPush 0; RPop 17],
        mk_cqueue [NULL; 15; 16] 1 1 2 3 false true null_free_item,
        [Call null_free_item 14]).
Proof. repeat split; reflexivity. Qed.

(** C2: [ac_cqueue_destroy] calls [free_item] on an item that was popped.
    On a queue of one slot without overwrite, after the push and the pop
    of 11 the queue is empty and its destruction calls [free_item] on 11;
    [ac_cqueue_foreach], which tests [count] first, visits nothing. And
    the destruction of a new, empty queue of 3 slots in overwrite mode
    makes 3 calls of [free_item], on [NULL]. *)
Theorem destroy_releases_popped_item :
  ac_cqueue_new 1 true (Some (fun _ => 9)) 1 NULL 0
  = Ok (inr (mk_cqueue [9] 0 0 0 1 false false null_free_item))
  /\ run (mk_cqueue [9] 0 0 0 1 false false null_free_item)
       [Push 11 None; Pop]
     = ([RPush 0; RPop 11],
        mk_cqueue [11] 1 1 0 1 false false null_free_item, [])
  /\ ac_cqueue_destroy (mk_cqueue [11] 1 1 0 1 false false null_free_item)
     = [Call null_free_item 11]
  /\ ac_cqueue_foreach (mk_cqueue [11] 1 1 0 1 false false null_free_item)
     = []
  /\ ac_cqueue_new 1 true (Some (fun _ => 9)) 3 NULL 1
     = Ok (inr (mk_cqueue [NULL; NULL; NULL] 0 0 0 3 false true null_free_item))
  /\ ac_cqueue_destroy
       (mk_cqueue [NULL; NULL; NULL] 0 0 0 3 false true null_free_item)
     = [Call null_free_item NULL; Call null_free_item NULL;
        Call null_free_item NULL].
Proof. repeat split; reflexivity. Qed.

(** C5: the growth of a queue whose live items wrap around the end of the
    array loses the oldest item. A growable queue gets 101 to 116, a pop
    (of 101) and 117: it is full, [front] and [rear] both at slot 1, which
    holds 102. The push of 118 grows the array to 32 slots and then
    writes slot 1: 102 is gone, and 17 pops return 118, 103 to 116 and the
    contents of two of the new slots, not 102 to 118. *)
Theorem growth_of_wrapped_queue_loses_item :
  ac_cqueue_new 1 true (Some (fun _ => 9)) 0 NULL 0
  = Ok (inr (mk_cqueue (replicate 16 9) 0 0 0 16 true false null_free_item))
  /\ run (mk_cqueue (replicate 16 9) 0 0 0 16 true false null_free_item)
       (pushes (seqZ 101 16) ++ [Pop; Push 117 None])
     = (replicate 16 (RPush 0) ++ [RPop 101; RPush 0],
        mk_cqueue (117 :: seqZ 102 15) 1 1 16 16 true false null_free_item,
        [])
  /\ ac_cqueue_push (Some (fun _ => 7))
       (mk_cqueue (117 :: seqZ 102 15) 1 1 16 16 true false null_free_item)
       118
     = (0,
        mk_cqueue ([117; 118] ++ seqZ 103 14 ++ replicate 16 7) 1 2 17 32
                  true false null_free_item,
        [])
  /\ (pop_n 17
        (mk_cqueue ([117; 118] ++ seqZ 103 14 ++ replicate 16 7) 1 2 17 32
                   true false null_free_item)).1
     = [118] ++ seqZ 103 14 ++ [7; 7].
Proof. repeat split; reflexivity. Qed.

(** C10: a push that grows a queue in overwrite mode can release a live
    item. A growable queue in overwrite mode gets 101 to 116, a pop (of
    101) and 117: it is full, [rear] at slot 1, which holds 102, the
    oldest item. The push of 118 grows the array to 32 slots, and then
    calls [free_item] on 102 and writes 118 over it. *)
Theorem growth_in_overwrite_mode_releases :
  ac_cqueue_new 1 true (Some (fun _ => 9)) 0 NULL 1
  = Ok (inr (mk_cqueue (replicate 16 NULL) 0 0 0 16 true true null_free_item))
  /\ run (mk_cqueue (replicate 16 NULL) 0 0 0 16 true true null_free_item)
       (pushes (seqZ 101 16) ++ [Pop; Push 117 None])
     = (replicate 16 (RPush 0) ++ [RPop 101; RPush 0],
        mk_cqueue (117 :: seqZ 102 15) 1 1 16 16 true true null_free_item,
        [])
  /\ ac_cqueue_push (Some (fun _ => NULL))
       (mk_cqueue (117 :: seqZ 102 15) 1 1 16 16 true true null_free_item)
       118
     = (0,
        mk_cqueue ([117; 118] ++ seqZ 103 14 ++ replicate 16 NULL) 2 2 17 32
                  true true null_free_item,
        [Call null_free_item 102]).
Proof. repeat split; reflexivity. Qed.

(** * The fixed queue without overwrite, and what every queue keeps *)

(** ** A fixed queue without overwrite is a bounded FIFO *)

Lemma load_store_eq (q : list ptr) (i : Z) (x : ptr) :
  0 <= i < Z.of_nat (length q) -> load (store q i x) i = x.
Proof.
  intros Hi. unfold load, store.
  by rewrite list_lookup_insert_eq by lia.
Qed.

Lemma load_store_ne (q : list ptr) (i j : Z) (x : ptr) :
  0 <= i -> 0 <= j -> i <> j -> load (store q i x) j = load q j.
Proof.
  intros Hi Hj Hne. unfold load, store.
  by rewrite list_lookup_insert_ne by lia.
Qed.

(** One push on a queue without overwrite that is not full. *)
Lemma push_fifo (mem : option (nat -> ptr)) (q : list ptr) (f r c n : Z)
    (dyn : bool) (fi : free_fn) (x : ptr) :
  0 < n <= SIZE_MAX -> 0 <= r <= n -> 0 <= c < n ->
  ac_cqueue_push mem (mk_cqueue q f r c n dyn false fi) x
  = (0,
     mk_cqueue (store q (if r =? n then 0 else r) x) f
               ((if r =? n then 0 else r) + 1) (c + 1) n dyn false fi,
     []).
Proof.
  intros Hn Hr Hc.
  unfold ac_cqueue_push, push_grow, push_track_front. simpl.
  destruct (Z.eqb_spec c n); [lia |]. simpl.
  destruct (Z.eqb_spec r n); simpl;
    (destruct (Z.ltb_spec c n); [| lia]); simpl;
    unfold set_count, set_rear, set_queue; simpl;
    by repeat size_t_small.
Qed.

(** One pop on a queue without overwrite that is not empty. *)
Lemma pop_fifo (q : list ptr) (f r c n : Z) (dyn : bool) (fi : free_fn) :
  0 < n <= SIZE_MAX -> 0 <= f <= n -> 0 < c <= n ->
  ac_cqueue_pop (mk_cqueue q f r c n dyn false fi)
  = (load q (if f =? n then 0 else f),
     mk_cqueue q ((if f =? n then 0 else f) + 1) r (c - 1) n dyn false fi).
Proof.
  intros Hn Hf Hc. destruct (Z.eqb_spec f n) as [-> | Hne].
  - rewrite pop_front_at_size by lia. by rewrite pop_nonempty by lia.
  - by rewrite pop_nonempty by lia.
Qed.

Lemma holds_new (OW : Z) (heap : nat -> ptr) (n : Z) (fn : ptr)
    (cq : ac_cqueue_t) :
  0 < n -> n * sizeof_ptr <= SIZE_MAX ->
  ac_cqueue_new OW true (Some heap) n fn 0 = Ok (inr cq) ->
  holds cq [] /\ size cq = n
  /\ free_item cq
     = if fn =? NULL then null_free_item else caller_free_item fn.
Proof.
  intros Hn Hmax.
  rewrite new_allocated by (rewrite ?Z.land_0_l; lia || done).
  rewrite Z.land_0_l. simpl.
  destruct (Z.eqb_spec n 0); [lia |].
  intros [= <-]. split; [| done].
  unfold holds, wf, norm, around; simpl. rewrite length_fresh_slots.
  unfold sizeof_ptr in Hmax.
  destruct (Z.eqb_spec 0 n); [lia |]. simpl.
  destruct (Z.ltb_spec 0 n); [| lia].
  repeat split; try done; try lia.
  by destruct n.
Qed.

(** Case analysis on every comparison in sight. *)
Ltac cases_cmp :=
  repeat match goal with
         | |- context [Z.eqb ?a ?b] => destruct (Z.eqb_spec a b)
         | |- context [Z.ltb ?a ?b] => destruct (Z.ltb_spec a b)
         | H : context [Z.eqb ?a ?b] |- _ => destruct (Z.eqb_spec a b)
         | H : context [Z.ltb ?a ?b] |- _ => destruct (Z.ltb_spec a b)
         end.

Lemma holds_push (mem : option (nat -> ptr)) (cq : ac_cqueue_t)
    (l : list ptr) (x : ptr) :
  holds cq l ->
  Z.of_nat (length l) < size cq ->
  (ac_cqueue_push mem cq x).1.1 = 0
  /\ (ac_cqueue_push mem cq x).2 = []
  /\ size (ac_cqueue_push mem cq x).1.2 = size cq
  /\ holds (ac_cqueue_push mem cq x).1.2 (l ++ [x]).
Proof.
  destruct cq as [q f r c n dyn ow fi]. unfold holds, wf. simpl.
  intros ((Hn & Hf & Hr & Hc & Hq) & -> & -> & -> & Hrear & Hzero & Hat) Hlt.
  rewrite push_fifo by lia. simpl.
  split; [done |]. split; [done |]. split; [done |].
  set (r0 := if r =? n then 0 else r) in *.
  assert (Hr0 : r0 = around n (norm (mk_cqueue q f r (Z.of_nat (length l)) n
                                  false false fi) f + Z.of_nat (length l))).
  { unfold norm in *. simpl in *. by subst r0. }
  unfold norm, around in *. simpl in *.
  split; [| split; [done |]; split; [done |]; split;
            [| split; [| split]]].
  - rewrite length_store. subst r0. cases_cmp; lia.
  - rewrite length_app. simpl. lia.
  - rewrite length_app. simpl length. subst r0. cases_cmp; lia.
  - subst r0. cases_cmp; lia.
  - intros i y Hi. apply lookup_app_Some in Hi as [Hi | [Hge Hi]].
    + rewrite load_store_ne.
      * by apply Hat.
      * subst r0. cases_cmp; lia.
      * cases_cmp; lia.
      * apply lookup_lt_Some in Hi. rewrite Hr0. cases_cmp; lia.
    + apply list_lookup_singleton_Some in Hi as [Hi <-].
      replace i with (length l) by lia.
      rewrite <- Hr0. apply load_store_eq. subst r0. cases_cmp; lia.
Qed.

Lemma holds_push_full (mem : option (nat -> ptr)) (cq : ac_cqueue_t)
    (l : list ptr) (x : ptr) :
  holds cq l ->
  size cq <= Z.of_nat (length l) ->
  ac_cqueue_push mem cq x = (-1, cq, []).
Proof.
  unfold holds, wf. intros (Hwf & Hdyn & How & Hc & _) Hfull.
  unfold ac_cqueue_push. rewrite Hdyn, How.
  destruct (Z.eqb_spec (count cq) (size cq)); [done | lia].
Qed.

Lemma holds_pop (cq : ac_cqueue_t) (x : ptr) (l : list ptr) :
  holds cq (x :: l) ->
  (ac_cqueue_pop cq).1 = x
  /\ size (ac_cqueue_pop cq).2 = size cq
  /\ holds (ac_cqueue_pop cq).2 l.
Proof.
  destruct cq as [q f r c n dyn ow fi]. unfold holds, wf. simpl.
  intros ((Hn & Hf & Hr & Hc & Hq) & -> & -> & -> & Hrear & Hzero & Hat).
  rewrite pop_fifo by lia. simpl.
  pose proof (Hat 0%nat x eq_refl) as Hx.
  unfold norm, around in *. simpl in *.
  split; [| split; [done |]].
  - rewrite <- Hx. f_equal. cases_cmp; lia.
  - split; [| split; [done |]; split; [done |]; split;
              [| split; [| split]]].
    + cases_cmp; lia.
    + lia.
    + cases_cmp; lia.
    + intros ->. by destruct (Hzero eq_refl).
    + intros i y Hi. rewrite <- (Hat (S i) y Hi). f_equal.
      apply lookup_lt_Some in Hi. cases_cmp; lia.
Qed.

Lemma holds_step (cq : ac_cqueue_t) (l : list ptr) (o : op) :
  holds cq l ->
  (step cq o).1.1 = (fifo_step (size cq) l o).1
  /\ (step cq o).2 = []
  /\ size (step cq o).1.2 = size cq
  /\ holds (step cq o).1.2 (fifo_step (size cq) l o).2.
Proof.
  intros Hcq. destruct o as [x mem |]; simpl.
  - destruct (Z.ltb_spec (Z.of_nat (length l)) (size cq)) as [Hlt | Hge].
    + destruct (holds_push mem cq l x Hcq Hlt) as (H1 & H2 & H3 & H4).
      destruct (ac_cqueue_push mem cq x) as [[rc cq'] tr]. simpl in *.
      by subst.
    + by rewrite (holds_push_full mem cq l x Hcq Hge).
  - destruct l as [| x l].
    + rewrite pop_empty; [done |].
      by destruct Hcq as (_ & _ & _ & -> & _).
    + destruct (holds_pop cq x l Hcq) as (H1 & H2 & H3).
      destruct (ac_cqueue_pop cq) as [p cq']. simpl in *. by subst.
Qed.

Lemma holds_run (ops : list op) (cq : ac_cqueue_t) (l : list ptr) :
  holds cq l ->
  (run cq ops).1.1 = (fifo_run (size cq) l ops).1
  /\ (run cq ops).2 = []
  /\ size (run cq ops).1.2 = size cq
  /\ holds (run cq ops).1.2 (fifo_run (size cq) l ops).2.
Proof.
  revert cq l. induction ops as [| o ops IH]; intros cq l Hcq; [done |].
  destruct (holds_step cq l o Hcq) as (H1 & H2 & H3 & H4).
  simpl.
  destruct (step cq o) as [[r cq1] tr1].
  destruct (fifo_step (size cq) l o) as [r' l1]. simpl in *. subst.
  destruct (IH cq1 l1 H4) as (H5 & H6 & H7 & H8). rewrite H3 in *.
  destruct (run cq1 ops) as [[rs cq2] tr2].
  destruct (fifo_run (size cq) l1 ops) as [rs' l2]. simpl in *.
  by subst.
Qed.

Lemma for_slots_eq (q l : list ptr) (lo hi : Z) :
  hi = lo + Z.of_nat (length l) ->
  (forall (i : nat) (x : ptr),
     l !! i = Some x -> load q (lo + Z.of_nat i) = x) ->
  for_slots q lo hi = l.
Proof.
  unfold for_slots. revert lo hi.
  induction l as [| y l IH]; intros lo hi -> Hat.
  - rewrite seqZ_nil by (simpl; lia). done.
  - simpl length. rewrite seqZ_cons by lia. rewrite fmap_cons. f_equal.
    + rewrite <- (Hat 0%nat y eq_refl). f_equal. lia.
    + replace (Z.pred (lo + Z.of_nat (S (length l)) - lo))
        with (Z.succ lo + Z.of_nat (length l) - Z.succ lo) by lia.
      apply IH; [done |]. intros i x Hi.
      rewrite <- (Hat (S i) x Hi). f_equal. lia.
Qed.

(** The slots that [ac_cqueue_foreach] and [ac_cqueue_destroy] walk through
    are the items held, oldest first, when there are some. *)
Lemma spans_holds (cq : ac_cqueue_t) (l : list ptr) :
  holds cq l -> l <> [] -> spans cq = l.
Proof.
  destruct cq as [q f r c n dyn ow fi]. unfold holds, wf, spans. simpl.
  intros ((Hn & Hf & Hr & Hc & Hq) & -> & -> & -> & Hrear & Hzero & Hat) Hne.
  assert (Hlen : 0 < Z.of_nat (length l)) by (destruct l; [done | simpl; lia]).
  assert (Hr0 : r <> 0) by (intros ->; by destruct (Hzero eq_refl)).
  unfold norm, around in *. simpl in *.
  destruct (Z.ltb_spec f r) as [Hfr | Hfr].
  - apply for_slots_eq; [cases_cmp; lia |].
    intros i x Hi. rewrite <- (Hat i x Hi). f_equal.
    apply lookup_lt_Some in Hi. cases_cmp; lia.
  - set (k := Z.to_nat (n - f)).
    assert (Hk : (k <= length l)%nat) by (unfold k; cases_cmp; lia).
    rewrite <- (take_drop k l) at 1. f_equal.
    + apply for_slots_eq; [rewrite length_take; unfold k; lia |].
      intros i x Hi. apply lookup_take_Some in Hi as [Hi Hik].
      rewrite <- (Hat i x Hi). f_equal. unfold k in *. cases_cmp; lia.
    + apply for_slots_eq; [rewrite length_drop; unfold k; cases_cmp; lia |].
      intros i x Hi. rewrite lookup_drop in Hi.
      rewrite <- (Hat _ x Hi). f_equal.
      apply lookup_lt_Some in Hi. unfold k in *. cases_cmp; lia.
Qed.

(** ** A fixed queue without overwrite, filled and emptied *)

Lemma holds_push_all (mem : option (nat -> ptr)) (items : list ptr)
    (cq : ac_cqueue_t) (l : list ptr) :
  holds cq l ->
  Z.of_nat (length l + length items) <= size cq ->
  (push_all mem cq items).1.1 = replicate (length items) 0
  /\ (push_all mem cq items).2 = []
  /\ size (push_all mem cq items).1.2 = size cq
  /\ holds (push_all mem cq items).1.2 (l ++ items).
Proof.
  revert cq l. induction items as [| x items IH]; intros cq l Hcq Hlen.
  - simpl. by rewrite app_nil_r.
  - cbn [length] in Hlen.
    destruct (holds_push mem cq l x Hcq) as (H1 & H2 & H3 & H4); [lia |].
    cbn [push_all].
    destruct (ac_cqueue_push mem cq x) as [[rc cq1] tr1]. cbn [fst snd] in *.
    destruct (IH cq1 (l ++ [x]) H4) as (H5 & H6 & H7 & H8).
    { rewrite H3, length_app. simpl. lia. }
    destruct (push_all mem cq1 items) as [[rcs cq2] tr2]. cbn [fst snd] in *.
    subst. rewrite <- app_assoc in H8. simpl in H8.
    split; [done |]. split; [done |]. split; [congruence | done].
Qed.

Lemma holds_pop_n (items : list ptr) (cq : ac_cqueue_t) (l : list ptr) :
  holds cq (items ++ l) ->
  (pop_n (length items) cq).1 = items
  /\ size (pop_n (length items) cq).2 = size cq
  /\ holds (pop_n (length items) cq).2 l.
Proof.
  revert cq. induction items as [| x items IH]; intros cq Hcq; [done |].
  rewrite <- app_comm_cons in Hcq.
  destruct (holds_pop cq x (items ++ l) Hcq) as (H1 & H2 & H3).
  cbn [length pop_n].
  destruct (ac_cqueue_pop cq) as [p cq1]. cbn [fst snd] in *.
  destruct (IH cq1 H3) as (H4 & H5 & H6).
  destruct (pop_n (length items) cq1) as [ps cq2]. cbn [fst snd] in *.
  subst. split; [done |]. split; [congruence | done].
Qed.

(** C3, as amended: [ac_cqueue_new] with no flag and a size [n > 0] whose
    byte count [n * sizeof(void * )] is a [size_t], both calls of [malloc]
    succeeding, returns a fixed queue without overwrite of capacity [n].
    Whenever that queue is empty ([count] is 0), after any sequence of
    pushes and pops, the pushes of [n] items all return 0; one more push
    returns -1 and leaves the queue as it is, [count] at [n]; [n] pops
    then return the items in the order of their insertion; one more pop
    returns [NULL], the queue being empty. *)
Theorem fixed_queue_fifo (OW : Z) (heap : nat -> ptr) (n : Z) (fn : ptr)
    (mem mem' : option (nat -> ptr)) (items : list ptr) (extra : ptr) :
  0 < n ->
  n * sizeof_ptr <= SIZE_MAX ->
  Z.of_nat (length items) = n ->
  exists cq0,
    ac_cqueue_new OW true (Some heap) n fn 0 = Ok (inr cq0)
    /\ dyn_size cq0 = false /\ overwrite cq0 = false /\ size cq0 = n
    /\ forall before : list op,
         let cq := (run cq0 before).1.2 in
         count cq = 0 ->
         let filled := push_all mem cq items in
         let full := ac_cqueue_push mem' filled.1.2 extra in
         let drained := pop_n (length items) full.1.2 in
         filled.1.1 = replicate (length items) 0
         /\ full.1.1 = -1
         /\ full.1.2 = filled.1.2
         /\ count full.1.2 = n
         /\ drained.1 = items
         /\ ac_cqueue_is_empty drained.2 = true
         /\ ac_cqueue_pop drained.2 = (NULL, drained.2).
Proof.
  intros Hn Hmax Hlen.
  destruct (ac_cqueue_new OW true (Some heap) n fn 0) as [[e | cq0] | |] eqn:Hnew;
    try (rewrite new_allocated in Hnew
           by (rewrite ?Z.land_0_l; lia || done);
         discriminate).
  destruct (holds_new OW heap n fn cq0 Hn Hmax Hnew) as (Hcq0 & Hsz & _).
  exists cq0. split; [done |].
  split; [by destruct Hcq0 as (_ & ? & _) |].
  split; [by destruct Hcq0 as (_ & _ & ? & _) |].
  split; [done |].
  intros before cq Hempty filled full drained.
  destruct (holds_run before cq0 [] Hcq0) as (_ & _ & Hsz1 & Hcq).
  fold cq in Hsz1, Hcq.
  assert (Hnil : (fifo_run (size cq0) [] before).2 = []).
  { destruct Hcq as (_ & _ & _ & Hc & _). rewrite Hempty in Hc.
    apply nil_length_inv. lia. }
  rewrite Hnil in Hcq.
  destruct (holds_push_all mem items cq [] Hcq) as (H1 & _ & H3 & H4).
  { simpl. lia. }
  fold filled in H1, H3, H4. rewrite app_nil_l in H4.
  assert (Hfull : full = (-1, filled.1.2, [])).
  { apply (holds_push_full mem' _ items extra H4). lia. }
  assert (Hdrained : drained = pop_n (length items) filled.1.2).
  { unfold drained. by rewrite Hfull. }
  rewrite <- (app_nil_r items) in H4.
  destruct (holds_pop_n items filled.1.2 [] H4) as (H5 & _ & H6).
  rewrite <- Hdrained in H5, H6.
  assert (Hc0 : count drained.2 = 0)
    by (by destruct H6 as (_ & _ & _ & -> & _)).
  rewrite Hfull. cbn [fst snd].
  split; [done |]. split; [done |]. split; [done |].
  split; [destruct H4 as (_ & _ & _ & -> & _); rewrite app_nil_r; lia |].
  split; [done |].
  split; [unfold ac_cqueue_is_empty; by rewrite Hc0 | by apply pop_empty].
Qed.

Lemma fixed_queue_fifo_witness :
  0 < 3
  /\ 3 * sizeof_ptr <= SIZE_MAX
  /\ Z.of_nat (length [11; 12; 13]) = 3
  /\ ac_cqueue_new 1 true (Some (fun _ => 9)) 3 NULL 0
     = Ok (inr (mk_cqueue [9; 9; 9] 0 0 0 3 false false null_free_item))
  /\ run (mk_cqueue [9; 9; 9] 0 0 0 3 false false null_free_item)
       [Push 7 None; Push 8 None; Pop; Pop]
     = ([RPush 0; RPush 0; RPop 7; RPop 8],
        mk_cqueue [7; 8; 9] 2 2 0 3 false false null_free_item, [])
  /\ (push_all None (mk_cqueue [7; 8; 9] 2 2 0 3 false false null_free_item)
        [11; 12; 13]).1
     = ([0; 0; 0], mk_cqueue [12; 13; 11] 2 2 3 3 false false null_free_item)
  /\ (ac_cqueue_push None
        (mk_cqueue [12; 13; 11] 2 2 3 3 false false null_free_item) 14).1.1
     = -1
  /\ (pop_n 3 (mk_cqueue [12; 13; 11] 2 2 3 3 false false null_free_item)).1
     = [11; 12; 13].
Proof.
  assert (H1 : 0 < 3) by lia.
  assert (H2 : 3 * sizeof_ptr <= SIZE_MAX)
    by (unfold sizeof_ptr, SIZE_MAX; lia).
  assert (H3 : Z.of_nat (length [11; 12; 13]) = 3) by reflexivity.
  split; [exact H1 |]. split; [exact H2 |]. split; [exact H3 |].
  split; [reflexivity |]. split; [reflexivity |]. split; [reflexivity |].
  destruct (fixed_queue_fifo 1 (fun _ => 9) 3 NULL None None
              [11; 12; 13] 14 H1 H2 H3)
    as (cq0 & Hnew & _ & _ & _ & Hall).
  vm_compute in Hnew. injection Hnew as <-.
  destruct (Hall [Push 7 None; Push 8 None; Pop; Pop] eq_refl)
    as (_ & Hfull & Hsame & _ & Hpops & _).
  split; [exact Hfull |].
  rewrite Hsame in Hpops. exact Hpops.
Defined.

(** One push on a fixed queue without overwrite that is not full and
    whose [rear] is below [size]. *)
Lemma push_not_full (mem : option (nat -> ptr)) (q : list ptr)
    (f r c n : Z) (fi : free_fn) (x : ptr) :
  0 < n <= SIZE_MAX -> 0 <= r < n -> 0 <= c < n ->
  ac_cqueue_push mem (mk_cqueue q f r c n false false fi) x
  = (0, mk_cqueue (store q r x) f (r + 1) (c + 1) n false false fi, []).
Proof.
  intros Hn Hr Hc.
  unfold ac_cqueue_push, push_grow, push_track_front. simpl.
  destruct (Z.eqb_spec c n); [lia |]. simpl.
  destruct (Z.eqb_spec r n); [lia |]. simpl.
  destruct (Z.ltb_spec c n); [| lia]. simpl.
  unfold set_count, set_rear, set_queue; simpl.
  by repeat size_t_small.
Qed.

(** A push whose slot is past the end of the array: the store is out of
    range, and the fields move as for any other push. *)
Lemma push_past_array (mem : option (nat -> ptr)) (q : list ptr)
    (f r c n : Z) (fi : free_fn) (x : ptr) :
  0 < n <= SIZE_MAX -> 0 <= r < n -> 0 <= c < n ->
  Z.of_nat (length q) <= r ->
  ac_cqueue_push mem (mk_cqueue q f r c n false false fi) x
  = (0, mk_cqueue q f (r + 1) (c + 1) n false false fi, []).
Proof.
  intros Hn Hr Hc Hq. rewrite push_not_full by done.
  unfold store. by rewrite list_insert_ge by lia.
Qed.

Lemma push_all_past_array (mem : option (nat -> ptr)) (items q : list ptr)
    (f r c n : Z) (fi : free_fn) :
  0 < n <= SIZE_MAX -> 0 <= r -> 0 <= c ->
  r + Z.of_nat (length items) <= n ->
  c + Z.of_nat (length items) <= n ->
  Z.of_nat (length q) <= r ->
  (push_all mem (mk_cqueue q f r c n false false fi) items).1.2
  = mk_cqueue q f (r + Z.of_nat (length items)) (c + Z.of_nat (length items))
              n false false fi.
Proof.
  revert r c. induction items as [|x items IH]; intros r c Hn Hr Hc Hrn Hcn Hq.
  - simpl. by rewrite !Z.add_0_r.
  - cbn [push_all]. cbn [length] in *.
    rewrite push_past_array by lia.
    specialize (IH (r + 1) (c + 1)).
    destruct (push_all mem _ items) as [[rcs cq2] tr2].
    cbn [fst snd] in *. rewrite IH by lia.
    f_equal; lia.
Qed.

(** On a queue of more than one slot whose array has a single slot, the
    second of [size] items is stored past the end of the array, and the
    second pop does not return it. *)
Lemma short_array_loses_item (mem mem' : option (nat -> ptr)) (h0 x1 x2 : ptr)
    (rest : list ptr) (extra : ptr) (n : Z) (fi : free_fn) :
  1 < n <= SIZE_MAX ->
  Z.of_nat (length (x1 :: x2 :: rest)) = n ->
  x2 <> NULL ->
  (pop_n (length (x1 :: x2 :: rest))
     (ac_cqueue_push mem'
        (push_all mem (mk_cqueue [h0] 0 0 0 n false false fi)
           (x1 :: x2 :: rest)).1.2 extra).1.2).1
  <> x1 :: x2 :: rest.
Proof.
  intros Hn Hlen Hx2. cbn [length] in Hlen.
  assert (Hfirst :
    ac_cqueue_push mem (mk_cqueue [h0] 0 0 0 n false false fi) x1
    = (0, mk_cqueue [x1] 0 1 1 n false false fi, [])).
  { by rewrite push_not_full by lia. }
  pose proof (push_all_past_array mem (x2 :: rest) [x1] 0 1 1 n fi) as Hrest.
  cbn [length] in Hrest.
  replace (1 + Z.of_nat (S (length rest))) with n in Hrest by lia.
  specialize (Hrest ltac:(lia) ltac:(lia) ltac:(lia) ltac:(lia) ltac:(lia)
                ltac:(simpl; lia)).
  change (push_all mem (mk_cqueue [h0] 0 0 0 n false false fi)
            (x1 :: x2 :: rest))
    with (let '(rc, cq1, tr1) :=
            ac_cqueue_push mem (mk_cqueue [h0] 0 0 0 n false false fi) x1 in
          let '(rcs, cq2, tr2) := push_all mem cq1 (x2 :: rest) in
          (rc :: rcs, cq2, tr1 ++ tr2)).
  rewrite Hfirst.
  destruct (push_all mem (mk_cqueue [x1] 0 1 1 n false false fi) (x2 :: rest))
    as [[rcs cq2] tr2].
  cbn [fst snd] in *. subst cq2.
  assert (Hfull :
    ac_cqueue_push mem' (mk_cqueue [x1] 0 n n n false false fi) extra
    = (-1, mk_cqueue [x1] 0 n n n false false fi, [])).
  { unfold ac_cqueue_push; simpl. by rewrite Z.eqb_refl. }
  rewrite Hfull. cbn [fst snd length pop_n].
  rewrite pop_nonempty by lia.
  rewrite pop_nonempty by lia.
  match goal with
  | |- context [pop_n (length rest) ?cq] =>
      destruct (pop_n (length rest) cq) as [ps cq3]
  end.
  cbn [fst]. intros Heq.
  assert (H2 : load [x1] (0 + 1) = x2) by congruence.
  apply Hx2. rewrite <- H2. reflexivity.
Qed.

(** A size [n] whose byte count wraps around to 8: the queue that
    [ac_cqueue_new] returns has one slot, and [n] distinct items pushed
    into it do not come out again. *)
Lemma wrapped_size_loses_item (heap : nat -> ptr) (n : Z) :
  1 < n <= SIZE_MAX ->
  to_size_t (n * sizeof_ptr) / sizeof_ptr = 1 ->
  exists (items : list ptr) (cq0 : ac_cqueue_t),
    Z.of_nat (length items) = n
    /\ NoDup items
    /\ ac_cqueue_new 1 true (Some heap) n NULL 0 = Ok (inr cq0)
    /\ length (queue cq0) = 1%nat
    /\ (pop_n (length items)
          (ac_cqueue_push None (push_all None cq0 items).1.2 12).1.2).1
       <> items.
Proof.
  intros Hn Hslots.
  exists (seqZ 1 n),
         (mk_cqueue [heap 0%nat] 0 0 0 n false false null_free_item).
  assert (Hseq : seqZ 1 n = 1 :: 2 :: seqZ 3 (n - 2)).
  { rewrite seqZ_cons by lia. rewrite (seqZ_cons (Z.succ 1)) by lia.
    repeat f_equal; lia. }
  split; [rewrite length_seqZ; lia |].
  split; [apply NoDup_seqZ |].
  split.
  { unfold ac_cqueue_new, malloc. simpl.
    destruct (Z.eqb_spec n 0); [lia |].
    by rewrite Hslots. }
  split; [done |].
  rewrite Hseq. apply short_array_loses_item; [done | | done].
  cbn [length]. rewrite length_seqZ. lia.
Qed.

(** C3, as the specification states it, fails. When the [malloc] of the
    array returns [NULL], the queue is returned with no slot, and the
    first push stores through [NULL]. And for a size of [2 ^ 61 + 1] the
    byte count wraps around to 8: the array has one slot and the second
    of the [2 ^ 61 + 1] pushes, which returns 0, stores past its end. *)
Lemma fixed_queue_fifo_counterexample :
  ~ (forall (OW : Z) (obj : bool) (mem0 : option (nat -> ptr)) (n : Z)
       (fn : ptr) (mem mem' : option (nat -> ptr)) (items : list ptr)
       (extra : ptr) (cq0 : ac_cqueue_t),
        0 < n <= SIZE_MAX ->
        Z.of_nat (length items) = n ->
        NoDup items ->
        ac_cqueue_new OW obj mem0 n fn 0 = Ok (inr cq0) ->
        let filled := push_all mem cq0 items in
        let full := ac_cqueue_push mem' filled.1.2 extra in
        let drained := pop_n (length items) full.1.2 in
        filled.1.1 = replicate (length items) 0
        /\ full.1.1 = -1
        /\ full.1.2 = filled.1.2
        /\ count full.1.2 = n
        /\ drained.1 = items
        /\ ac_cqueue_is_empty drained.2 = true
        /\ ac_cqueue_pop drained.2 = (NULL, drained.2))
  /\
  ~ (forall (OW : Z) (heap : nat -> ptr) (n : Z)
       (fn : ptr) (mem mem' : option (nat -> ptr)) (items : list ptr)
       (extra : ptr) (cq0 : ac_cqueue_t),
        0 < n <= SIZE_MAX ->
        Z.of_nat (length items) = n ->
        NoDup items ->
        ac_cqueue_new OW true (Some heap) n fn 0 = Ok (inr cq0) ->
        let filled := push_all mem cq0 items in
        let full := ac_cqueue_push mem' filled.1.2 extra in
        let drained := pop_n (length items) full.1.2 in
        filled.1.1 = replicate (length items) 0
        /\ full.1.1 = -1
        /\ full.1.2 = filled.1.2
        /\ count full.1.2 = n
        /\ drained.1 = items
        /\ ac_cqueue_is_empty drained.2 = true
        /\ ac_cqueue_pop drained.2 = (NULL, drained.2)).
Proof.
  split.
  - intros H.
    specialize (H 1 true None 1 NULL None None [11] 12
                  (mk_cqueue [] 0 0 0 1 false false null_free_item)).
    destruct H as (_ & _ & _ & _ & Hpops & _).
    + unfold SIZE_MAX. lia.
    + reflexivity.
    + apply NoDup_singleton.
    + reflexivity.
    + vm_compute in Hpops. discriminate Hpops.
  - intros H.
    destruct (wrapped_size_loses_item (fun _ => 9) 2305843009213693953)
      as (items & cq0 & Hlen & Hnd & Hnew & _ & Hne).
    + unfold SIZE_MAX. lia.
    + vm_compute. reflexivity.
    + apply Hne.
      assert (Hn : 0 < 2305843009213693953 <= SIZE_MAX)
        by (unfold SIZE_MAX; lia).
      exact (proj1 (proj2 (proj2 (proj2 (proj2
               (H 1 (fun _ => 9) 2305843009213693953 NULL None None
                  items 12 cq0 Hn Hlen Hnd Hnew)))))).
Qed.

(** The release function of a queue is the one it was made with. *)
Lemma step_free_item (cq : ac_cqueue_t) (o : op) :
  free_item (step cq o).1.2 = free_item cq.
Proof.
  destruct cq as [q f r c n dyn ow fi], o as [x mem |]; simpl.
  - unfold ac_cqueue_push, push_grow, push_track_front, realloc. simpl.
    destruct (c =? n), dyn, ow, mem; simpl; try done;
      repeat (case_cmp; simpl); done.
  - unfold ac_cqueue_pop. simpl.
    destruct (c =? 0); [done |]. by destruct (f =? n), ow.
Qed.

Lemma step_overwrite (cq : ac_cqueue_t) (o : op) :
  overwrite (step cq o).1.2 = overwrite cq.
Proof.
  destruct cq as [q f r c n dyn ow fi], o as [x mem |]; simpl.
  - unfold ac_cqueue_push, push_grow, push_track_front, realloc. simpl.
    destruct (c =? n), dyn, ow, mem; simpl; try done;
      repeat (case_cmp; simpl); done.
  - unfold ac_cqueue_pop. simpl.
    destruct (c =? 0); [done |]. by destruct (f =? n), ow.
Qed.

Lemma run_free_item (ops : list op) (cq : ac_cqueue_t) :
  free_item (run cq ops).1.2 = free_item cq.
Proof.
  revert cq. induction ops as [| o ops IH]; intros cq; [done |].
  by rewrite run_cons, IH, step_free_item.
Qed.

(** X1: on a queue made by [ac_cqueue_new] with no flag and a size
    [n > 0] whose byte count [n * sizeof(void * )] is a [size_t], both
    calls of [malloc] having succeeded, every sequence of pushes and pops
    returns what a FIFO bounded by [n] returns: a push gives 0, or -1 when
    [n] items are held, a pop gives the oldest item held, or [NULL] when
    none is. [free_item] is never called and the capacity stays [n]. *)
Theorem fixed_queue_is_fifo (OW : Z) (heap : nat -> ptr) (n : Z) (fn : ptr)
    (cq0 : ac_cqueue_t) (ops : list op) :
  0 < n ->
  n * sizeof_ptr <= SIZE_MAX ->
  ac_cqueue_new OW true (Some heap) n fn 0 = Ok (inr cq0) ->
  (run cq0 ops).1.1 = (fifo_run n [] ops).1
  /\ (run cq0 ops).2 = []
  /\ size (run cq0 ops).1.2 = n.
Proof.
  intros Hn Hmax Hnew.
  destruct (holds_new OW heap n fn cq0 Hn Hmax Hnew) as (Hcq & <- & _).
  destruct (holds_run ops cq0 [] Hcq) as (H1 & H2 & H3 & _). done.
Qed.

Lemma fixed_queue_is_fifo_witness :
  0 < 2
  /\ 2 * sizeof_ptr <= SIZE_MAX
  /\ ac_cqueue_new 1 true (Some (fun _ => 9)) 2 NULL 0
     = Ok (inr (mk_cqueue [9; 9] 0 0 0 2 false false null_free_item))
  /\ (run (mk_cqueue [9; 9] 0 0 0 2 false false null_free_item)
        [Push 11 None; Push 12 None; Push 13 None; Pop; Push 14 None;
         Pop; Pop; Pop]).1.1
     = [RPush 0; RPush 0; RPush (-1); RPop 11; RPush 0;
        RPop 12; RPop 14; RPop NULL].
Proof.
  assert (H1 : 0 < 2) by lia.
  assert (H1' : 2 * sizeof_ptr <= SIZE_MAX)
    by (unfold sizeof_ptr, SIZE_MAX; lia).
  assert (H2 : ac_cqueue_new 1 true (Some (fun _ => 9)) 2 NULL 0
    = Ok (inr (mk_cqueue [9; 9] 0 0 0 2 false false null_free_item)))
    by reflexivity.
  split; [exact H1 |]. split; [exact H1' |]. split; [exact H2 |].
  exact (proj1 (fixed_queue_is_fifo 1 (fun _ => 9) 2 NULL _
     [Push 11 None; Push 12 None; Push 13 None; Pop; Push 14 None;
      Pop; Pop; Pop] H1 H1' H2)).
Defined.

(** X2: after every sequence of pushes and pops on such a queue (no flag,
    a size [n > 0] whose byte count is a [size_t], both calls of [malloc]
    having succeeded), [ac_cqueue_foreach] visits exactly the items held,
    oldest first, [ac_cqueue_nr_items] is their number and
    [ac_cqueue_is_empty] tells whether there is none. *)
Theorem fixed_queue_enumerates (OW : Z) (heap : nat -> ptr) (n : Z)
    (fn : ptr) (cq0 : ac_cqueue_t) (ops : list op) :
  0 < n ->
  n * sizeof_ptr <= SIZE_MAX ->
  ac_cqueue_new OW true (Some heap) n fn 0 = Ok (inr cq0) ->
  ac_cqueue_foreach (run cq0 ops).1.2 = (fifo_run n [] ops).2
  /\ ac_cqueue_nr_items (run cq0 ops).1.2
     = Z.of_nat (length (fifo_run n [] ops).2)
  /\ (ac_cqueue_is_empty (run cq0 ops).1.2 = true
      <-> (fifo_run n [] ops).2 = []).
Proof.
  intros Hn Hmax Hnew.
  destruct (holds_new OW heap n fn cq0 Hn Hmax Hnew) as (Hcq & <- & _).
  destruct (holds_run ops cq0 [] Hcq) as (_ & _ & _ & Hfin).
  set (cq := (run cq0 ops).1.2) in *.
  set (l := (fifo_run (size cq0) [] ops).2) in *.
  assert (Hcount : count cq = Z.of_nat (length l))
    by (by destruct Hfin as (_ & _ & _ & -> & _)).
  unfold ac_cqueue_foreach, ac_cqueue_nr_items, ac_cqueue_is_empty.
  rewrite Hcount. split; [| split; [done |]].
  - destruct l as [| x l'] eqn:Hl; [done |].
    destruct (Z.eqb_spec (Z.of_nat (length (x :: l'))) 0) as [He |];
      [simpl in He; lia |].
    by apply spans_holds.
  - destruct l; simpl; split; intros H; try done; lia.
Qed.

Lemma fixed_queue_enumerates_witness :
  0 < 2
  /\ 2 * sizeof_ptr <= SIZE_MAX
  /\ ac_cqueue_new 1 true (Some (fun _ => 9)) 2 NULL 0
     = Ok (inr (mk_cqueue [9; 9] 0 0 0 2 false false null_free_item))
  /\ ac_cqueue_foreach
       (run (mk_cqueue [9; 9] 0 0 0 2 false false null_free_item)
          [Push 11 None; Push 12 None; Pop; Push 13 None]).1.2
     = [12; 13].
Proof.
  assert (H1 : 0 < 2) by lia.
  assert (H1' : 2 * sizeof_ptr <= SIZE_MAX)
    by (unfold sizeof_ptr, SIZE_MAX; lia).
  assert (H2 : ac_cqueue_new 1 true (Some (fun _ => 9)) 2 NULL 0
    = Ok (inr (mk_cqueue [9; 9] 0 0 0 2 false false null_free_item)))
    by reflexivity.
  split; [exact H1 |]. split; [exact H1' |]. split; [exact H2 |].
  exact (proj1 (fixed_queue_enumerates 1 (fun _ => 9) 2 NULL _
     [Push 11 None; Push 12 None; Pop; Push 13 None] H1 H1' H2)).
Defined.

(** X3: when such a queue (no flag, a size [n > 0] whose byte count is a
    [size_t], both calls of [malloc] having succeeded) holds at least one
    item, [ac_cqueue_destroy] calls the release function, the one given to
    [ac_cqueue_new] or [null_free_item] when none was, exactly once on
    each item held, oldest first, and on nothing else. *)
Theorem fixed_queue_destroy_nonempty (OW : Z) (heap : nat -> ptr) (n : Z)
    (fn : ptr) (cq0 : ac_cqueue_t) (ops : list op) :
  0 < n ->
  n * sizeof_ptr <= SIZE_MAX ->
  ac_cqueue_new OW true (Some heap) n fn 0 = Ok (inr cq0) ->
  (fifo_run n [] ops).2 <> [] ->
  ac_cqueue_destroy (run cq0 ops).1.2
  = Call (if fn =? NULL then null_free_item else caller_free_item fn)
      <$> (fifo_run n [] ops).2.
Proof.
  intros Hn Hmax Hnew Hne.
  destruct (holds_new OW heap n fn cq0 Hn Hmax Hnew) as (Hcq & <- & Hfi).
  destruct (holds_run ops cq0 [] Hcq) as (_ & _ & _ & Hfin).
  unfold ac_cqueue_destroy. rewrite (spans_holds _ _ Hfin Hne).
  unfold call_free. by rewrite run_free_item, Hfi.
Qed.

Lemma fixed_queue_destroy_nonempty_witness :
  0 < 2
  /\ 2 * sizeof_ptr <= SIZE_MAX
  /\ ac_cqueue_new 1 true (Some (fun _ => 9)) 2 5 0
     = Ok (inr (mk_cqueue [9; 9] 0 0 0 2 false false (caller_free_item 5)))
  /\ (fifo_run 2 [] [Push 11 None; Push 12 None; Pop; Push 13 None]).2 <> []
  /\ ac_cqueue_destroy
       (run (mk_cqueue [9; 9] 0 0 0 2 false false (caller_free_item 5))
          [Push 11 None; Push 12 None; Pop; Push 13 None]).1.2
     = [Call (caller_free_item 5) 12; Call (caller_free_item 5) 13].
Proof.
  assert (H1 : 0 < 2) by lia.
  assert (H1' : 2 * sizeof_ptr <= SIZE_MAX)
    by (unfold sizeof_ptr, SIZE_MAX; lia).
  assert (H2 : ac_cqueue_new 1 true (Some (fun _ => 9)) 2 5 0
    = Ok (inr (mk_cqueue [9; 9] 0 0 0 2 false false (caller_free_item 5))))
    by reflexivity.
  assert (H3 : (fifo_run 2 []
                  [Push 11 None; Push 12 None; Pop; Push 13 None]).2 <> [])
    by (vm_compute; discriminate).
  split; [exact H1 |]. split; [exact H1' |]. split; [exact H2 |].
  split; [exact H3 |].
  exact (fixed_queue_destroy_nonempty 1 (fun _ => 9) 2 5 _
     [Push 11 None; Push 12 None; Pop; Push 13 None] H1 H1' H2 H3).
Defined.

(** ** What every queue keeps *)

Lemma step_dyn_size (cq : ac_cqueue_t) (o : op) :
  dyn_size (step cq o).1.2 = dyn_size cq.
Proof.
  destruct cq as [q f r c n dyn ow fi], o as [x mem |]; simpl.
  - unfold ac_cqueue_push, push_grow, push_track_front, realloc. simpl.
    destruct (c =? n), dyn, ow, mem; simpl; try done;
      repeat (case_cmp; simpl); done.
  - unfold ac_cqueue_pop. simpl.
    destruct (c =? 0); [done |]. by destruct (f =? n), ow.
Qed.

Lemma step_size_fixed (cq : ac_cqueue_t) (o : op) :
  dyn_size cq = false -> size (step cq o).1.2 = size cq.
Proof.
  intros Hdyn. destruct o as [x mem |]; simpl.
  - destruct (push_size_change mem cq x) as [He | (_ & Hd & _)];
      [| congruence].
    by destruct (ac_cqueue_push mem cq x) as [[rc cq'] tr].
  - pose proof (pop_size cq) as He.
    by destruct (ac_cqueue_pop cq) as [p cq'].
Qed.

Lemma run_size_fixed (ops : list op) (cq : ac_cqueue_t) :
  dyn_size cq = false -> size (run cq ops).1.2 = size cq.
Proof.
  revert cq. induction ops as [| o ops IH]; intros cq Hdyn; [done |].
  rewrite run_cons, IH; [by apply step_size_fixed |].
  by rewrite step_dyn_size.
Qed.

(** X4: in every state that a sequence of pushes and pops reaches from a
    queue made by [ac_cqueue_new], whatever the flags and whatever the
    calls of [malloc] did, [count] is between 0 and [size], [dyn_size] and
    [overwrite] are as at the creation, and the capacity of a fixed queue
    is the one asked for, the run being short enough for the capacity of
    a growable queue to stay a [size_t]; when moreover the [malloc] of the
    array succeeded and the byte count of the array is a [size_t], at the
    creation and, for a growable queue, after as many growths as there
    are operations, the array has [size] slots in every such state. *)
Theorem count_and_capacity_run (OW : Z) (obj : bool)
    (mem : option (nat -> ptr)) (n : Z) (fn : ptr) (flags : Z)
    (cq0 : ac_cqueue_t) (ops : list op) :
  is_size_t n ->
  (n = 0 ->
   AC_CQUEUE_ALLOC_CHUNK_SZ * (Z.of_nat (length ops) + 1) <= SIZE_MAX) ->
  ac_cqueue_new OW obj mem n fn flags = Ok (inr cq0) ->
  0 <= count (run cq0 ops).1.2 <= size (run cq0 ops).1.2
  /\ dyn_size (run cq0 ops).1.2 = dyn_size cq0
  /\ overwrite (run cq0 ops).1.2 = overwrite cq0
  /\ (n <> 0 -> size (run cq0 ops).1.2 = n)
  /\ (n * sizeof_ptr <= SIZE_MAX ->
      (n = 0 ->
       AC_CQUEUE_ALLOC_CHUNK_SZ * (Z.of_nat (length ops) + 1) * sizeof_ptr
       <= SIZE_MAX) ->
      mem <> None ->
      length (queue (run cq0 ops).1.2)
      = Z.to_nat (size (run cq0 ops).1.2)).
Proof.
  intros Hn Hlen Hnew.
  destruct (wf_fields_new _ _ _ _ _ _ _ Hn Hnew) as (Hwf & Hsz & Hdyn).
  assert (Hsmall : dyn_size cq0 = true ->
            size cq0 + AC_CQUEUE_ALLOC_CHUNK_SZ * Z.of_nat (length ops)
            <= SIZE_MAX).
  { rewrite Hsz, Hdyn.
    destruct (Z.eqb_spec n 0); [| discriminate].
    intros _. specialize (Hlen e).
    unfold AC_CQUEUE_ALLOC_CHUNK_SZ in *. lia. }
  destruct (wf_fields_run ops cq0 Hwf Hsmall) as (_ & _ & _ & Hc).
  split; [done |]. split; [| split; [| split]].
  - clear. revert cq0. induction ops as [| o ops IH]; intros cq0; [done |].
    by rewrite run_cons, IH, step_dyn_size.
  - clear. revert cq0. induction ops as [| o ops IH]; intros cq0; [done |].
    by rewrite run_cons, IH, step_overwrite.
  - intros Hne. destruct (Z.eqb_spec n 0); [done |].
    by rewrite run_size_fixed.
  - intros Hmax Hbytes Hmem.
    assert (Hobj : obj = true).
    { unfold ac_cqueue_new in Hnew.
      destruct (negb (_ =? 0)); [discriminate |].
      by destruct obj. }
    destruct mem as [heap |]; [| done]. subst obj.
    destruct (wf_new _ _ _ _ _ _ (proj1 Hn) Hmax Hnew) as (Hwf' & _ & _).
    destruct (wf_run ops cq0 Hwf') as ((_ & _ & _ & _ & Hq) & _); [| done].
    rewrite Hsz, Hdyn.
    destruct (Z.eqb_spec n 0); [| discriminate].
    intros _. specialize (Hbytes e).
    unfold AC_CQUEUE_ALLOC_CHUNK_SZ, sizeof_ptr in *. lia.
Qed.

Lemma count_and_capacity_run_witness :
  is_size_t 0
  /\ (0 = 0 ->
      AC_CQUEUE_ALLOC_CHUNK_SZ
      * (Z.of_nat (length (pushes (seqZ 101 17) ++ [Pop])) + 1) <= SIZE_MAX)
  /\ ac_cqueue_new 1 true (Some (fun _ => 9)) 0 NULL 1
     = Ok (inr (mk_cqueue (replicate 16 NULL) 0 0 0 16 true true null_free_item))
  /\ 0 * sizeof_ptr <= SIZE_MAX
  /\ (0 = 0 ->
      AC_CQUEUE_ALLOC_CHUNK_SZ
      * (Z.of_nat (length (pushes (seqZ 101 17) ++ [Pop])) + 1) * sizeof_ptr
      <= SIZE_MAX)
  /\ Some (fun _ : nat => 9) <> None
  /\ 0 <= count (run (mk_cqueue (replicate 16 NULL) 0 0 0 16 true true
                        null_free_item)
                   (pushes (seqZ 101 17) ++ [Pop])).1.2
       <= size (run (mk_cqueue (replicate 16 NULL) 0 0 0 16 true true
                       null_free_item)
                  (pushes (seqZ 101 17) ++ [Pop])).1.2
  /\ length (queue (run (mk_cqueue (replicate 16 NULL) 0 0 0 16 true true
                           null_free_item)
                      (pushes (seqZ 101 17) ++ [Pop])).1.2)
     = Z.to_nat (size (run (mk_cqueue (replicate 16 NULL) 0 0 0 16 true true
                              null_free_item)
                         (pushes (seqZ 101 17) ++ [Pop])).1.2).
Proof.
  assert (H1 : is_size_t 0) by (unfold is_size_t, SIZE_MAX; lia).
  assert (H2 : 0 = 0 ->
      AC_CQUEUE_ALLOC_CHUNK_SZ
      * (Z.of_nat (length (pushes (seqZ 101 17) ++ [Pop])) + 1) <= SIZE_MAX)
    by (intros _; vm_compute; discriminate).
  assert (H3 : ac_cqueue_new 1 true (Some (fun _ => 9)) 0 NULL 1
     = Ok (inr (mk_cqueue (replicate 16 NULL) 0 0 0 16 true true null_free_item)))
    by reflexivity.
  assert (H4 : 0 * sizeof_ptr <= SIZE_MAX) by (unfold SIZE_MAX; lia).
  assert (H4' : 0 = 0 ->
      AC_CQUEUE_ALLOC_CHUNK_SZ
      * (Z.of_nat (length (pushes (seqZ 101 17) ++ [Pop])) + 1) * sizeof_ptr
      <= SIZE_MAX)
    by (intros _; vm_compute; discriminate).
  assert (H5 : Some (fun _ : nat => 9) <> None) by discriminate.
  split; [exact H1 |]. split; [exact H2 |]. split; [exact H3 |].
  split; [exact H4 |]. split; [exact H4' |]. split; [exact H5 |].
  pose proof (count_and_capacity_run 1 true (Some (fun _ => 9)) 0 NULL 1 _
                (pushes (seqZ 101 17) ++ [Pop]) H1 H2 H3)
    as (Hc & _ & _ & _ & Hq).
  split; [exact Hc | exact (Hq H4 H4' H5)].
Defined.

Lemma growable_queue_fifo_witness :
  AC_CQUEUE_ALLOC_CHUNK_SZ * (Z.of_nat (length (seqZ 1 20)) + 1) <= SIZE_MAX
  /\ exists cq0,
       ac_cqueue_new 1 true (Some (fun _ => 9)) 0 NULL 0 = Ok (inr cq0)
       /\ (pop_n 20 (push_all (Some (fun _ => 7)) cq0 (seqZ 1 20)).1.2).1
          = seqZ 1 20.
Proof.
  assert (H : AC_CQUEUE_ALLOC_CHUNK_SZ * (Z.of_nat (length (seqZ 1 20)) + 1)
              <= SIZE_MAX) by (vm_compute; discriminate).
  split; [exact H |].
  destruct (growable_queue_fifo 1 (fun _ => 9) (fun _ => 7) NULL
              (seqZ 1 20) H) as (cq0 & Hnew & _ & _ & Hpops & _).
  exists cq0. split; [exact Hnew | exact Hpops].
Defined.

(** * The singly linked list *)

(** ** Lists in the heap *)

Lemma lseg_insert_ne (h : slist_heap) (cells : list (ptr * ptr))
    (p q a : ptr) (nd : ac_slist_t) :
  a ∉ cells.*1 -> lseg h p cells q -> lseg (<[a := nd]> h) p cells q.
Proof.
  revert p. induction cells as [| [b x] cells IH]; intros p Hna; [done |].
  simpl in *. apply not_elem_of_cons in Hna as [Hne Hna].
  intros (-> & Hb & n & Hn & Hrest).
  split; [done |]. split; [done |]. exists n.
  split; [by rewrite lookup_insert_ne | by apply IH].
Qed.

Lemma lseg_delete_ne (h : slist_heap) (cells : list (ptr * ptr))
    (p q a : ptr) :
  a ∉ cells.*1 -> lseg h p cells q -> lseg (delete a h) p cells q.
Proof.
  revert p. induction cells as [| [b x] cells IH]; intros p Hna; [done |].
  simpl in *. apply not_elem_of_cons in Hna as [Hne Hna].
  intros (-> & Hb & n & Hn & Hrest).
  split; [done |]. split; [done |]. exists n.
  split; [by rewrite lookup_delete_ne | by apply IH].
Qed.

Lemma lseg_app (h : slist_heap) (c1 c2 : list (ptr * ptr)) (p q : ptr) :
  lseg h p (c1 ++ c2) q <-> exists m, lseg h p c1 m /\ lseg h m c2 q.
Proof.
  revert p. induction c1 as [| [a x] c1 IH]; intros p; simpl.
  - split; [intros H; by exists p | by intros (m & -> & H)].
  - split.
    + intros (-> & Ha & n & Hn & Hrest).
      apply IH in Hrest as (m & H1 & H2). exists m.
      split; [| done]. split; [done |]. split; [done |]. by exists n.
    + intros (m & (-> & Ha & n & Hn & H1) & H2).
      split; [done |]. split; [done |]. exists n.
      split; [done |]. apply IH. by exists m.
Qed.

Lemma lseg_allocated (h : slist_heap) (cells : list (ptr * ptr))
    (p q a : ptr) :
  lseg h p cells q -> a ∈ cells.*1 -> a <> NULL /\ is_Some (h !! a).
Proof.
  revert p. induction cells as [| [b x] cells IH]; intros p; simpl.
  - intros _ Ha. by apply elem_of_nil in Ha.
  - intros (-> & Hb & n & Hn & Hrest) Ha.
    apply elem_of_cons in Ha as [-> | Ha]; [by eauto | by eapply IH].
Qed.

Lemma node_at_cell (h : slist_heap) (a x n : ptr) :
  a <> NULL -> h !! a = Some (slist_node x n) ->
  node_at h a = Ok (slist_node x n).
Proof.
  intros Ha Hn. unfold node_at.
  destruct (Z.eqb_spec a NULL); [done |]. by rewrite Hn.
Qed.

(** ** ac_slist_find and ac_slist_foreach *)

(** X6: on a list, with enough fuel, [ac_slist_find] returns the address
    of the first node whose item is [d], and [NULL] exactly when no node
    holds [d]. *)
Theorem slist_find_first (h : slist_heap) (cells : list (ptr * ptr))
    (p d : ptr) (fuel : nat) :
  is_slist h p cells ->
  (length cells < fuel)%nat ->
  exists r,
    ac_slist_find fuel h p d = Ok r
    /\ (r = NULL /\ d ∉ cells.*2
        \/ r <> NULL
           /\ exists pre suf, cells = pre ++ (r, d) :: suf /\ d ∉ pre.*2).
Proof.
  intros [Hseg _]. revert p fuel Hseg.
  induction cells as [| [a x] cells IH]; intros p fuel Hseg Hfuel;
    (destruct fuel as [| fuel]; [simpl in Hfuel; lia |]); simpl in *.
  - subst p. exists NULL. split; [done |]. left. split; [done |].
    apply not_elem_of_nil.
  - destruct Hseg as (-> & Ha & n & Hn & Hrest).
    destruct (Z.eqb_spec a NULL); [done |]. simpl.
    rewrite (node_at_cell h a x n) by done. simpl.
    destruct (Z.eqb_spec x d) as [-> | Hne].
    + exists a. split; [done |]. right. split; [done |].
      exists [], cells. split; [done |]. apply not_elem_of_nil.
    + destruct (IH n fuel Hrest) as (r & Hr & Hcase); [lia |].
      exists r. split; [done |].
      destruct Hcase as [[-> Hnot] | (Hrne & pre & suf & -> & Hnot)].
      * left. split; [done |]. by apply not_elem_of_cons.
      * right. split; [done |]. exists ((a, x) :: pre), suf.
        split; [done |]. simpl. by apply not_elem_of_cons.
Qed.

(** X7: on a list, with enough fuel, [ac_slist_foreach] calls [action] on
    the items of the list, in the order of the list. *)
Theorem slist_foreach_items (h : slist_heap) (cells : list (ptr * ptr))
    (p : ptr) (fuel : nat) :
  is_slist h p cells ->
  (length cells < fuel)%nat ->
  ac_slist_foreach fuel h p = Ok cells.*2.
Proof.
  intros [Hseg _]. revert p fuel Hseg.
  induction cells as [| [a x] cells IH]; intros p fuel Hseg Hfuel;
    (destruct fuel as [| fuel]; [simpl in Hfuel; lia |]); simpl in *.
  - by subst p.
  - destruct Hseg as (-> & Ha & n & Hn & Hrest).
    destruct (Z.eqb_spec a NULL); [done |]. simpl.
    rewrite (node_at_cell h a x n) by done. simpl.
    rewrite (IH n fuel Hrest) by lia. done.
Qed.

(** ** ac_slist_preadd and ac_slist_add *)

Lemma fresh_not_in_cells (h : slist_heap) (cells : list (ptr * ptr))
    (p q new : ptr) :
  lseg h p cells q -> h !! new = None -> new ∉ cells.*1.
Proof.
  intros Hseg Hnew Hin.
  destruct (lseg_allocated h cells p q new Hseg Hin) as [_ [nd Hnd]].
  congruence.
Qed.

Lemma preadd_spec (h : slist_heap) (cells : list (ptr * ptr))
    (p new d : ptr) :
  is_slist h p cells ->
  new <> NULL -> h !! new = None ->
  exists h',
    ac_slist_preadd new h p d = Ok (h', new)
    /\ is_slist h' new ((new, d) :: cells)
    /\ (forall b, b <> new -> h' !! b = h !! b).
Proof.
  intros [Hseg Hnd] Hnew Hfresh.
  pose proof (fresh_not_in_cells h cells p NULL new Hseg Hfresh) as Hnotin.
  unfold ac_slist_preadd, new_node.
  destruct (Z.eqb_spec new NULL); [done |]. simpl.
  replace (if negb (p =? NULL) then p else NULL) with p
    by (destruct (Z.eqb_spec p NULL); simpl; congruence).
  eexists. split; [reflexivity |]. split; [split |].
  - simpl. split; [done |]. split; [done |]. exists p.
    split; [by rewrite lookup_insert_eq | by apply lseg_insert_ne].
  - simpl. by apply NoDup_cons.
  - intros b Hb. by rewrite lookup_insert_ne.
Qed.

(** X8: [ac_slist_preadd] puts a new node, holding [d], in front of the
    list: the list of the items gets [d] at its head, and no other node
    changes. *)
Theorem slist_preadd_front (h : slist_heap) (cells : list (ptr * ptr))
    (p new d : ptr) :
  is_slist h p cells ->
  new <> NULL -> h !! new = None ->
  exists h',
    ac_slist_preadd new h p d = Ok (h', new)
    /\ is_slist h' new ((new, d) :: cells)
    /\ (forall b, b <> new -> h' !! b = h !! b).
Proof. apply preadd_spec. Qed.

Lemma slist_last_snoc (h : slist_heap) (cells : list (ptr * ptr))
    (p a x : ptr) (fuel : nat) :
  lseg h p (cells ++ [(a, x)]) NULL ->
  (length cells < fuel)%nat ->
  slist_last fuel h p = Ok a.
Proof.
  revert p fuel.
  induction cells as [| [b y] cells IH]; intros p fuel Hseg Hfuel;
    (destruct fuel as [| fuel]; [simpl in Hfuel; lia |]); simpl in *.
  - destruct Hseg as (-> & Ha & n & Hn & ->).
    by rewrite (node_at_cell h a x NULL).
  - destruct Hseg as (-> & Hb & n & Hn & Hrest).
    rewrite (node_at_cell h b y n) by done. simpl.
    assert (Hnn : n <> NULL).
    { destruct cells as [| [c z] cells]; simpl in Hrest;
        by destruct Hrest as (-> & Hc & _). }
    destruct (Z.eqb_spec n NULL); [done |]. simpl.
    apply IH; [done | lia].
Qed.

Lemma add_spec (h : slist_heap) (cells : list (ptr * ptr))
    (p new d : ptr) (fuel : nat) :
  is_slist h p cells ->
  new <> NULL -> h !! new = None ->
  (length cells < fuel)%nat ->
  exists h' p',
    ac_slist_add fuel new h p d = Ok (h', p')
    /\ is_slist h' p' (cells ++ [(new, d)])
    /\ (cells <> [] -> p' = p)
    /\ (forall b, b <> new -> b ∉ cells.*1 -> h' !! b = h !! b).
Proof.
  intros [Hseg Hnd] Hnew Hfresh Hfuel.
  pose proof (fresh_not_in_cells h cells p NULL new Hseg Hfresh) as Hnotin.
  unfold ac_slist_add, new_node.
  destruct (Z.eqb_spec new NULL); [done |]. simpl.
  assert (Hnd' : NoDup (cells ++ [(new, d)]).*1).
  { rewrite fmap_app. apply NoDup_app. split; [done |]. split.
    - intros b Hb Hb'. simpl in Hb'. apply list_elem_of_singleton in Hb'.
      by subst.
    - simpl. apply NoDup_singleton. }
  destruct cells as [| c cells0 _] using rev_ind.
  - simpl in Hseg. subst p. simpl.
    exists (<[new := slist_node d NULL]> h), new.
    split; [done |]. split; [| split; [done |]].
    + split; [| done].
      simpl. split; [done |]. split; [done |]. exists NULL.
      by rewrite lookup_insert_eq.
    + intros b Hb _. by rewrite lookup_insert_ne.
  - destruct c as [a x].
    assert (Hp : p <> NULL).
    { destruct cells0 as [| [b y] cells0]; simpl in Hseg;
        by destruct Hseg as (-> & Hb & _). }
    destruct (Z.eqb_spec p NULL); [done |]. simpl.
    rewrite length_app in Hfuel. simpl in Hfuel.
    rewrite fmap_app in Hnotin. simpl in Hnotin.
    apply not_elem_of_app in Hnotin as [Hnotin Hna].
    apply not_elem_of_cons in Hna as [Hna _].
    rewrite fmap_app in Hnd. simpl in Hnd.
    apply NoDup_app in Hnd as (Hnd0 & Hdisj & _).
    assert (Ha0 : a ∉ cells0.*1).
    { intros Hin. apply (Hdisj a Hin). apply list_elem_of_singleton. done. }
    set (h1 := <[new := slist_node d NULL]> h).
    assert (Hseg1 : lseg h1 p (cells0 ++ [(a, x)]) NULL).
    { apply lseg_insert_ne; [| done].
      rewrite fmap_app. simpl. apply not_elem_of_app. split; [done |].
      apply not_elem_of_cons. split; [done | apply not_elem_of_nil]. }
    rewrite (slist_last_snoc h1 cells0 p a x) by (done || lia). simpl.
    apply lseg_app in Hseg1 as (m & Hinit & Hlast). simpl in Hlast.
    destruct Hlast as (-> & Ha & nx & Hnx & ->).
    unfold set_next. rewrite (node_at_cell h1 a x NULL) by done. simpl.
    eexists _, p. split; [reflexivity |]. split; [| split; [done |]].
    + split; [| done].
      apply lseg_app. exists new. split.
      * apply lseg_app. exists a. split; [by apply lseg_insert_ne |].
        simpl. split; [done |]. split; [done |]. exists new.
        split; [by rewrite lookup_insert_eq | done].
      * simpl. split; [done |]. split; [done |]. exists NULL.
        split; [| done].
        rewrite lookup_insert_ne by done. unfold h1.
        by rewrite lookup_insert_eq.
    + intros b Hb Hb'. rewrite fmap_app in Hb'. simpl in Hb'.
      apply not_elem_of_app in Hb' as [_ Hb'].
      apply not_elem_of_cons in Hb' as [Hba _].
      rewrite lookup_insert_ne by done. unfold h1.
      by rewrite lookup_insert_ne.
Qed.

(** X9: on a list, with enough fuel, [ac_slist_add] puts a new node,
    holding [d], at the end of the list: the list of the items gets [d] at
    its end, [*list] changes only when the list was empty, and the heap
    outside of the list and of the new node is untouched. *)
Theorem slist_add_end (h : slist_heap) (cells : list (ptr * ptr))
    (p new d : ptr) (fuel : nat) :
  is_slist h p cells ->
  new <> NULL -> h !! new = None ->
  (length cells < fuel)%nat ->
  exists h' p',
    ac_slist_add fuel new h p d = Ok (h', p')
    /\ is_slist h' p' (cells ++ [(new, d)])
    /\ (cells <> [] -> p' = p)
    /\ (forall b, b <> new -> b ∉ cells.*1 -> h' !! b = h !! b).
Proof. apply add_spec. Qed.

(** ** ac_slist_remove *)

Lemma remove_loop_absent (h : slist_heap) (cells : list (ptr * ptr))
    (cur hd d fd : ptr) (pp : link) (fuel : nat) :
  lseg h cur cells NULL ->
  d ∉ cells.*2 ->
  read_link h hd pp = Ok cur ->
  (length cells < fuel)%nat ->
  slist_remove_loop fuel h hd pp d fd = Ok (h, hd, false, []).
Proof.
  revert cur pp fuel.
  induction cells as [| [a x] cells IH]; intros cur pp fuel Hseg Hd Hpp Hfuel;
    (destruct fuel as [| fuel]; [simpl in Hfuel; lia |]); simpl in *.
  - subst cur. by rewrite Hpp.
  - destruct Hseg as (-> & Ha & nx & Hnx & Hrest).
    apply not_elem_of_cons in Hd as [Hne Hd].
    rewrite Hpp. simpl.
    destruct (Z.eqb_spec a NULL); [done |]. simpl.
    rewrite (node_at_cell h a x nx) by done. simpl.
    destruct (Z.eqb_spec x d); [congruence |].
    apply (IH nx); [done | done | | lia].
    simpl. by rewrite (node_at_cell h a x nx).
Qed.

(** What [pp] is when the nodes [done] have been passed. *)
Lemma link_reads (h : slist_heap) (done rest : list (ptr * ptr))
    (hd : ptr) (pp : link) :
  lseg h hd (done ++ rest) NULL ->
  (pp = Head /\ done = []
   \/ exists done0 b y, done = done0 ++ [(b, y)] /\ pp = NextOf b) ->
  exists cur, read_link h hd pp = Ok cur /\ lseg h cur rest NULL.
Proof.
  intros Hseg [[-> ->] | (done0 & b & y & -> & ->)].
  - by exists hd.
  - apply lseg_app in Hseg as (m & Hdone & Hrest).
    apply lseg_app in Hdone as (m' & _ & Hb). simpl in Hb.
    destruct Hb as (-> & Hb & nb & Hnb & <-).
    exists nb. split; [| done]. simpl.
    by rewrite (node_at_cell h b y nb).
Qed.

Lemma remove_loop_found (h : slist_heap) (suf pre done : list (ptr * ptr))
    (a d fd hd : ptr) (pp : link) (fuel : nat) :
  lseg h hd (done ++ pre ++ (a, d) :: suf) NULL ->
  NoDup (done ++ pre ++ (a, d) :: suf).*1 ->
  (pp = Head /\ done = []
   \/ exists done0 b y, done = done0 ++ [(b, y)] /\ pp = NextOf b) ->
  d ∉ pre.*2 ->
  (length pre < fuel)%nat ->
  exists h' p',
    slist_remove_loop fuel h hd pp d fd
    = Ok (h', p', true,
          if negb (fd =? NULL) then [Call (caller_free_item fd) d] else [])
    /\ is_slist h' p' (done ++ pre ++ suf)
    /\ h' !! a = None
    /\ (done ++ pre <> [] -> p' = hd)
    /\ (forall b, b ∉ (done ++ pre ++ (a, d) :: suf).*1 -> h' !! b = h !! b).
Proof.
  revert done pp fuel.
  induction pre as [| [b y] pre IH];
    intros done pp fuel Hseg Hnd Hpp Hd Hfuel;
    (destruct fuel as [| fuel]; [simpl in Hfuel; lia |]).
  - rewrite app_nil_l in *.
    destruct (link_reads h done ((a, d) :: suf) hd pp Hseg Hpp)
      as (cur & Hread & Hcur).
    simpl in Hcur. destruct Hcur as (-> & Ha & n & Hn & Hsuf).
    cbn [slist_remove_loop]. rewrite Hread. simpl.
    destruct (Z.eqb_spec a NULL); [done |]. simpl.
    rewrite (node_at_cell h a d n) by done. simpl.
    rewrite Z.eqb_refl.
    rewrite fmap_app in Hnd. simpl in Hnd.
    apply NoDup_app in Hnd as (Hnd1 & Hdisj & Hnd2).
    apply NoDup_cons in Hnd2 as [Hasuf Hnd2].
    destruct Hpp as [[-> ->] | (done0 & c & z & -> & ->)].
    + simpl. exists (delete a h), n. split; [done |].
      split; [split; [by apply lseg_delete_ne | done] |].
      split; [by rewrite lookup_delete_eq |]. split; [done |].
      intros x Hx. simpl in Hx. apply not_elem_of_cons in Hx as [Hx _].
      by rewrite lookup_delete_ne.
    + apply lseg_app in Hseg as (m & Hdone & Hm).
      simpl in Hm. destruct Hm as (-> & _).
      apply lseg_app in Hdone as (m' & Hdone0 & Hc). simpl in Hc.
      destruct Hc as (-> & Hc & nc & Hnc & Hnca). subst nc.
      assert (Hca : c <> a).
      { intros ->. apply (Hdisj a).
        - rewrite fmap_app. apply elem_of_app. right. simpl.
          apply elem_of_cons. by left.
        - apply elem_of_cons. by left. }
      rewrite fmap_app in Hnd1. simpl in Hnd1.
      apply NoDup_app in Hnd1 as (Hnd0 & Hdisj0 & _).
      assert (Hc0 : c ∉ done0.*1).
      { intros Hin. apply (Hdisj0 c Hin). apply elem_of_cons. by left. }
      assert (Ha0 : a ∉ done0.*1).
      { intros Hin. apply (Hdisj a).
        - rewrite fmap_app. apply elem_of_app. by left.
        - apply elem_of_cons. by left. }
      assert (Hcsuf : c ∉ suf.*1).
      { intros Hin. apply (Hdisj c).
        - rewrite fmap_app. apply elem_of_app. right. simpl.
          apply elem_of_cons. by left.
        - apply elem_of_cons. by right. }
      simpl. unfold set_next. rewrite (node_at_cell h c z a) by done. simpl.
      exists (delete a (<[c := slist_node z n]> h)), hd.
      split; [done |]. split; [split |].
      * apply lseg_app. exists n. split.
        -- apply lseg_app. exists c. split.
           ++ apply lseg_delete_ne; [done |]. by apply lseg_insert_ne.
           ++ simpl. split; [done |]. split; [done |]. exists n.
              split; [| done].
              rewrite lookup_delete_ne by done. by rewrite lookup_insert_eq.
        -- apply lseg_delete_ne; [done |]. by apply lseg_insert_ne.
      * rewrite fmap_app. apply NoDup_app.
        split; [rewrite fmap_app; apply NoDup_app; split; [done |];
                split; [done | apply NoDup_singleton] |].
        split; [| done].
        intros x Hx Hx'. apply (Hdisj x Hx). apply elem_of_cons. by right.
      * split; [by rewrite lookup_delete_eq |]. split; [done |].
        intros x Hx. rewrite !fmap_app in Hx. simpl in Hx.
        apply not_elem_of_app in Hx as [Hx1 Hx2].
        apply not_elem_of_app in Hx1 as [_ Hx1].
        apply not_elem_of_cons in Hx1 as [Hxc _].
        apply not_elem_of_cons in Hx2 as [Hxa _].
        rewrite lookup_delete_ne by done. by rewrite lookup_insert_ne.
  - destruct (link_reads h done (((b, y) :: pre) ++ (a, d) :: suf) hd pp
                Hseg Hpp) as (cur & Hread & Hcur).
    simpl in Hcur. destruct Hcur as (-> & Hb & n & Hn & Hrest).
    simpl in Hd. apply not_elem_of_cons in Hd as [Hyd Hd].
    cbn [slist_remove_loop]. rewrite Hread. simpl.
    destruct (Z.eqb_spec b NULL); [done |]. simpl.
    rewrite (node_at_cell h b y n) by done. simpl.
    destruct (Z.eqb_spec y d); [congruence |].
    destruct (IH (done ++ [(b, y)]) (NextOf b) fuel)
      as (h' & p' & Hloop & Hlist & Hfree & Hhd & Hframe).
    + by rewrite <- app_assoc.
    + by rewrite <- app_assoc.
    + right. by exists done, b, y.
    + done.
    + simpl in Hfuel. lia.
    + exists h', p'. rewrite <- app_assoc in Hlist, Hframe, Hhd.
      split; [done |]. split; [done |]. split; [done |].
      split; [| done]. intros _. apply Hhd.
      by destruct done.
Qed.

(** X10: on a list that does not hold [d], with enough fuel,
    [ac_slist_remove] returns [false], calls nothing and leaves the heap
    and [*list] as they are. *)
Theorem slist_remove_absent (h : slist_heap) (cells : list (ptr * ptr))
    (p d fd : ptr) (fuel : nat) :
  is_slist h p cells ->
  d ∉ cells.*2 ->
  (length cells < fuel)%nat ->
  ac_slist_remove fuel h p d fd = Ok (h, p, false, []).
Proof.
  intros [Hseg _] Hd Hfuel.
  by apply (remove_loop_absent h cells p).
Qed.

(** X11: on a list whose first node holding [d] is at [a], with enough
    fuel, [ac_slist_remove] returns [true], takes that node, and no other,
    out of the list and frees it; it calls [free_data], when there is
    one, once, on [d]; the other nodes keep their order, [*list] changes
    only when the node was the first one and the rest of the heap is
    untouched. *)
Theorem slist_remove_first (h : slist_heap) (pre suf : list (ptr * ptr))
    (p a d fd : ptr) (fuel : nat) :
  is_slist h p (pre ++ (a, d) :: suf) ->
  d ∉ pre.*2 ->
  (length pre < fuel)%nat ->
  exists h' p',
    ac_slist_remove fuel h p d fd
    = Ok (h', p', true,
          if negb (fd =? NULL) then [Call (caller_free_item fd) d] else [])
    /\ is_slist h' p' (pre ++ suf)
    /\ h' !! a = None
    /\ (pre <> [] -> p' = p)
    /\ (forall b, b ∉ (pre ++ (a, d) :: suf).*1 -> h' !! b = h !! b).
Proof.
  intros [Hseg Hnd] Hd Hfuel.
  destruct (remove_loop_found h suf pre [] a d fd p Head fuel)
    as (h' & p' & Hloop & Hlist & Hfree & Hhd & Hframe);
    try done; [by left |].
  by exists h', p'.
Qed.

(** ** ac_slist_reverse *)

Lemma reverse_loop_spec (todo done : list (ptr * ptr)) (h : slist_heap)
    (cur prev : ptr) (fuel : nat) :
  lseg h cur todo NULL ->
  lseg h prev done NULL ->
  NoDup (todo ++ done).*1 ->
  (length todo < fuel)%nat ->
  exists h' p',
    slist_reverse_loop fuel h cur prev = Ok (h', p')
    /\ lseg h' p' (reverse todo ++ done) NULL
    /\ (forall b, b ∉ todo.*1 -> h' !! b = h !! b).
Proof.
  revert done h cur prev fuel.
  induction todo as [| [a x] todo IH];
    intros done h cur prev fuel Hcur Hprev Hnd Hfuel;
    (destruct fuel as [| fuel]; [simpl in Hfuel; lia |]); simpl in *.
  - subst cur. simpl. by exists h, prev.
  - destruct Hcur as (-> & Ha & nx & Hnx & Hrest).
    destruct (Z.eqb_spec a NULL); [done |]. simpl.
    unfold set_next. rewrite (node_at_cell h a x nx) by done. simpl.
    apply NoDup_cons in Hnd as [Hnotin Hnd].
    rewrite fmap_app in Hnotin. apply not_elem_of_app in Hnotin as [Ha1 Ha2].
    destruct (IH ((a, x) :: done) (<[a := slist_node x prev]> h) nx a fuel)
      as (h' & p' & Hloop & Hseg & Hframe).
    + by apply lseg_insert_ne.
    + simpl. split; [done |]. split; [done |]. exists prev.
      split; [by rewrite lookup_insert_eq | by apply lseg_insert_ne].
    + rewrite fmap_app in *. simpl. rewrite <- Permutation_middle.
      apply NoDup_cons. split; [| done].
      by apply not_elem_of_app.
    + lia.
    + exists h', p'. split; [done |]. split.
      * by rewrite reverse_cons, <- app_assoc.
      * intros b Hb. apply not_elem_of_cons in Hb as [Hba Hb].
        rewrite Hframe by done. by rewrite lookup_insert_ne.
Qed.

Lemma reverse_is_slist (h : slist_heap) (cells : list (ptr * ptr))
    (p : ptr) (fuel : nat) :
  is_slist h p cells ->
  (length cells < fuel)%nat ->
  exists h' p',
    ac_slist_reverse fuel h p = Ok (h', p')
    /\ is_slist h' p' (reverse cells)
    /\ (forall b, b ∉ cells.*1 -> h' !! b = h !! b).
Proof.
  intros [Hseg Hnd] Hfuel.
  destruct (reverse_loop_spec cells [] h p NULL fuel)
    as (h' & p' & Hloop & Hrev & Hframe); try done.
  { by rewrite app_nil_r. }
  exists h', p'. rewrite app_nil_r in Hrev.
  split; [done |]. split; [| done]. split; [done |].
  by rewrite fmap_reverse, reverse_Permutation.
Qed.

(** X12: on a list, with enough fuel, [ac_slist_reverse] leaves a list of
    the same nodes in the opposite order, and the rest of the heap
    untouched. *)
Theorem slist_reverse_reverses (h : slist_heap) (cells : list (ptr * ptr))
    (p : ptr) (fuel : nat) :
  is_slist h p cells ->
  (length cells < fuel)%nat ->
  exists h' p',
    ac_slist_reverse fuel h p = Ok (h', p')
    /\ is_slist h' p' (reverse cells)
    /\ (forall b, b ∉ cells.*1 -> h' !! b = h !! b).
Proof. apply reverse_is_slist. Qed.

Lemma lseg_agree (h h2 : slist_heap) (cells : list (ptr * ptr))
    (p p2 q : ptr) :
  lseg h p cells q -> lseg h2 p2 cells q ->
  p = p2 /\ (forall b, b ∈ cells.*1 -> h !! b = h2 !! b).
Proof.
  revert p p2. induction cells as [| [a x] cells IH]; intros p p2; simpl.
  - intros -> ->. split; [done |]. intros b Hb. by apply elem_of_nil in Hb.
  - intros (-> & Ha & nx & Hnx & Hrest) (-> & _ & ny & Hny & Hrest2).
    destruct (IH nx ny Hrest Hrest2) as [-> Hsame].
    split; [done |]. intros b Hb.
    apply elem_of_cons in Hb as [-> | Hb]; [congruence | by apply Hsame].
Qed.

(** X13: on a list, with enough fuel, two calls of [ac_slist_reverse] give
    back the heap and the [*list] of the start. *)
Theorem slist_reverse_twice (h : slist_heap) (cells : list (ptr * ptr))
    (p : ptr) (fuel : nat) :
  is_slist h p cells ->
  (length cells < fuel)%nat ->
  exists h1 p1,
    ac_slist_reverse fuel h p = Ok (h1, p1)
    /\ ac_slist_reverse fuel h1 p1 = Ok (h, p).
Proof.
  intros Hlist Hfuel.
  destruct (reverse_is_slist h cells p fuel Hlist Hfuel)
    as (h1 & p1 & Hrev1 & Hlist1 & Hframe1).
  destruct (reverse_is_slist h1 (reverse cells) p1 fuel Hlist1)
    as (h2 & p2 & Hrev2 & Hlist2 & Hframe2);
    [by rewrite length_reverse |].
  rewrite reverse_involutive in Hlist2.
  exists h1, p1. split; [done |]. rewrite Hrev2.
  destruct (lseg_agree h2 h cells p2 p NULL (proj1 Hlist2) (proj1 Hlist))
    as [-> Hsame].
  do 2 f_equal. apply map_eq. intros b.
  destruct (decide (b ∈ cells.*1)) as [Hin | Hout]; [by apply Hsame |].
  rewrite Hframe2, Hframe1; [done | done |].
  by rewrite fmap_reverse, elem_of_reverse.
Qed.

(** ** ac_slist_destroy *)

Lemma destroy_frees_all (h : slist_heap) (cells : list (ptr * ptr))
    (p fd : ptr) (fuel : nat) :
  is_slist h p cells ->
  fd <> NULL ->
  (length cells < fuel)%nat ->
  exists h',
    ac_slist_destroy fuel h p fd
    = Ok (h', NULL, Call (caller_free_item fd) <$> cells.*2)
    /\ (forall a, a ∈ cells.*1 -> h' !! a = None)
    /\ (forall b, b ∉ cells.*1 -> h' !! b = h !! b).
Proof.
  intros [Hseg Hnd] Hfd. revert h p fuel Hseg Hnd.
  induction cells as [| [a x] cells IH]; intros h p fuel Hseg Hnd Hfuel;
    (destruct fuel as [| fuel]; [simpl in Hfuel; lia |]); simpl in *.
  - subst p. simpl. exists h. split; [done |]. split; [| done].
    intros a Ha. by apply elem_of_nil in Ha.
  - destruct Hseg as (-> & Ha & nx & Hnx & Hrest).
    apply NoDup_cons in Hnd as [Hnotin Hnd].
    destruct (Z.eqb_spec a NULL); [done |]. simpl.
    rewrite (node_at_cell h a x nx) by done. simpl.
    destruct (Z.eqb_spec fd NULL); [done |].
    destruct (IH (delete a h) nx fuel) as (h' & Hrec & Hgone & Hframe);
      [by apply lseg_delete_ne | done | lia |].
    rewrite Hrec. simpl. exists h'. split; [done |]. split.
    + intros b Hb. apply elem_of_cons in Hb as [-> | Hb]; [| by apply Hgone].
      rewrite Hframe by done. by rewrite lookup_delete_eq.
    + intros b Hb. apply not_elem_of_cons in Hb as [Hba Hb].
      rewrite Hframe by done. by rewrite lookup_delete_ne.
Qed.

(** X14: on a list, with enough fuel and a [free_data] that is not [NULL],
    [ac_slist_destroy] calls [free_data] once on each item, in the order of
    the list, frees every node, leaves [*list] at [NULL] and the rest of
    the heap untouched. *)
Theorem slist_destroy_all (h : slist_heap) (cells : list (ptr * ptr))
    (p fd : ptr) (fuel : nat) :
  is_slist h p cells ->
  fd <> NULL ->
  (length cells < fuel)%nat ->
  exists h',
    ac_slist_destroy fuel h p fd
    = Ok (h', NULL, Call (caller_free_item fd) <$> cells.*2)
    /\ (forall a, a ∈ cells.*1 -> h' !! a = None)
    /\ (forall b, b ∉ cells.*1 -> h' !! b = h !! b).
Proof. apply destroy_frees_all. Qed.

(** X15: with [NULL] for [free_data], which its comment allows,
    [ac_slist_destroy] is undefined on every list that is not empty: it
    calls [free_data] without the test that [ac_slist_remove] makes. On
    the empty list it does nothing. *)
Theorem slist_destroy_null_free_data (h : slist_heap)
    (cells : list (ptr * ptr)) (p : ptr) (fuel : nat) :
  is_slist h p cells ->
  (0 < fuel)%nat ->
  ac_slist_destroy fuel h p NULL
  = match cells with
    | [] => Ok (h, NULL, [])
    | _ :: _ => Fault
    end.
Proof.
  intros [Hseg _] Hfuel. destruct fuel as [| fuel]; [lia |].
  destruct cells as [| [a x] cells]; simpl in *.
  - by subst p.
  - destruct Hseg as (-> & Ha & nx & Hnx & _).
    destruct (Z.eqb_spec a NULL); [done |]. simpl.
    by rewrite (node_at_cell h a x nx).
Qed.

(** ** Building a list: at the end, or in front and then reversed *)

Lemma add_all_spec (fuel : nat) (news items : list ptr) (h : slist_heap)
    (cells : list (ptr * ptr)) (p : ptr) :
  is_slist h p cells ->
  length news = length items ->
  NoDup news ->
  (forall a, a ∈ news -> a <> NULL /\ h !! a = None) ->
  (length cells + length items < fuel)%nat ->
  exists h' p',
    slist_add_all fuel h p news items = Ok (h', p')
    /\ is_slist h' p' (cells ++ zip news items)
    /\ (forall b, b ∉ news -> b ∉ cells.*1 -> h' !! b = h !! b).
Proof.
  revert items h cells p.
  induction news as [| new news IH]; intros [| d items] h cells p
    Hlist Hlen Hnd Hfresh Hfuel; simpl in Hlen; try lia.
  - simpl. exists h, p. by rewrite app_nil_r.
  - apply NoDup_cons in Hnd as [Hnew Hnd].
    destruct (Hfresh new) as [Hnn Hnone]; [apply elem_of_cons; by left |].
    simpl in Hfuel.
    destruct (add_spec h cells p new d fuel Hlist Hnn Hnone)
      as (h1 & p1 & Hadd & Hlist1 & _ & Hframe1); [lia |].
    destruct (IH items h1 (cells ++ [(new, d)]) p1)
      as (h2 & p2 & Hall & Hlist2 & Hframe2).
    + done.
    + lia.
    + done.
    + intros a Ha.
      destruct (Hfresh a) as [Han Hanone]; [apply elem_of_cons; by right |].
      split; [done |]. rewrite Hframe1; [done | by intros -> |].
      by apply (fresh_not_in_cells h cells p NULL a (proj1 Hlist)).
    + rewrite length_app. simpl. lia.
    + exists h2, p2. cbn [slist_add_all]. rewrite Hadd. simpl.
      split; [done |]. rewrite <- app_assoc in Hlist2.
      split; [done |]. intros b Hb Hb'.
      apply not_elem_of_cons in Hb as [Hbn Hb].
      rewrite Hframe2; [by apply Hframe1 | done |].
      rewrite fmap_app. simpl. apply not_elem_of_app. split; [done |].
      apply not_elem_of_cons. split; [done | apply not_elem_of_nil].
Qed.

Lemma preadd_all_spec (news items : list ptr) (h : slist_heap)
    (cells : list (ptr * ptr)) (p : ptr) :
  is_slist h p cells ->
  length news = length items ->
  NoDup news ->
  (forall a, a ∈ news -> a <> NULL /\ h !! a = None) ->
  exists h' p',
    slist_preadd_all h p news items = Ok (h', p')
    /\ is_slist h' p' (reverse (zip news items) ++ cells)
    /\ (forall b, b ∉ news -> h' !! b = h !! b).
Proof.
  revert items h cells p.
  induction news as [| new news IH]; intros [| d items] h cells p
    Hlist Hlen Hnd Hfresh; simpl in Hlen; try lia.
  - simpl. by exists h, p.
  - apply NoDup_cons in Hnd as [Hnew Hnd].
    destruct (Hfresh new) as [Hnn Hnone]; [apply elem_of_cons; by left |].
    destruct (preadd_spec h cells p new d Hlist Hnn Hnone)
      as (h1 & Hpre & Hlist1 & Hframe1).
    destruct (IH items h1 ((new, d) :: cells) new)
      as (h2 & p2 & Hall & Hlist2 & Hframe2).
    + done.
    + lia.
    + done.
    + intros a Ha.
      destruct (Hfresh a) as [Han Hanone]; [apply elem_of_cons; by right |].
      split; [done |]. rewrite Hframe1; [done | by intros ->].
    + exists h2, p2. cbn [slist_preadd_all]. rewrite Hpre. simpl.
      split; [done |]. split.
      * by rewrite reverse_cons, <- app_assoc.
      * intros b Hb. apply not_elem_of_cons in Hb as [Hbn Hb].
        rewrite Hframe2 by done. by apply Hframe1.
Qed.

(** X16: starting from the empty list, [ac_slist_preadd] of each item
    followed by one [ac_slist_reverse] gives the heap and the [*list] that
    [ac_slist_add] of each item gives, when [malloc] returns the same
    addresses, new and distinct, in both runs; the items are then in the
    list in the order of their insertion. *)
Theorem slist_preadd_reverse_is_add (fuel : nat) (news items : list ptr)
    (h : slist_heap) :
  length news = length items ->
  NoDup news ->
  (forall a, a ∈ news -> a <> NULL /\ h !! a = None) ->
  (length items < fuel)%nat ->
  exists h' p',
    slist_add_all fuel h NULL news items = Ok (h', p')
    /\ (try! hl := slist_preadd_all h NULL news items in
        ac_slist_reverse fuel hl.1 hl.2) = Ok (h', p')
    /\ is_slist h' p' (zip news items).
Proof.
  intros Hlen Hnd Hfresh Hfuel.
  assert (Hempty : is_slist h NULL []) by (split; [done | apply NoDup_nil_2]).
  destruct (add_all_spec fuel news items h [] NULL Hempty Hlen Hnd Hfresh)
    as (ha & pa & Hadd & Hlista & Hframea); [simpl; lia |].
  destruct (preadd_all_spec news items h [] NULL Hempty Hlen Hnd Hfresh)
    as (hp & pp & Hpre & Hlistp & Hframep).
  rewrite app_nil_l in Hlista. rewrite app_nil_r in Hlistp.
  destruct (reverse_is_slist hp (reverse (zip news items)) pp fuel Hlistp)
    as (hr & pr & Hrev & Hlistr & Hframer).
  { rewrite length_reverse, length_zip. lia. }
  rewrite reverse_involutive in Hlistr.
  exists ha, pa. split; [done |]. split; [| done].
  rewrite Hpre. simpl. rewrite Hrev.
  destruct (lseg_agree hr ha (zip news items) pr pa NULL
              (proj1 Hlistr) (proj1 Hlista)) as [-> Hsame].
  do 2 f_equal. apply map_eq. intros b.
  assert (Hfst : (zip news items).*1 = news) by (apply fst_zip; lia).
  destruct (decide (b ∈ news)) as [Hin | Hout].
  - apply Hsame. by rewrite Hfst.
  - rewrite Hframer, Hframep, Hframea; try done.
    + apply not_elem_of_nil.
    + by rewrite fmap_reverse, elem_of_reverse, Hfst.
Qed.

(** ** The theorems of the list on a list of two nodes *)

Lemma heap12_is_slist : is_slist heap12 1 [(1, 11); (2, 12)].
Proof.
  split.
  - simpl. split; [done |]. split; [done |]. exists 2.
    split; [reflexivity |]. split; [done |]. split; [done |]. exists NULL.
    split; [reflexivity | done].
  - simpl. apply NoDup_cons. split; [| apply NoDup_singleton].
    intros H. apply list_elem_of_singleton in H. discriminate H.
Defined.

Lemma fresh_3_4 (a : ptr) :
  a ∈ [3; 4] -> a <> NULL /\ no_node !! a = None.
Proof.
  intros Ha. split; [| apply lookup_empty].
  apply elem_of_cons in Ha as [-> | Ha]; [done |].
  apply list_elem_of_singleton in Ha. by subst.
Defined.

Lemma slist_find_first_witness :
  is_slist heap12 1 [(1, 11); (2, 12)]
  /\ (length [(1, 11); (2, 12)] < 3)%nat
  /\ exists r,
       ac_slist_find 3 heap12 1 12 = Ok r
       /\ (r = NULL /\ 12 ∉ [(1, 11); (2, 12)].*2
           \/ r <> NULL
              /\ exists pre suf,
                   [(1, 11); (2, 12)] = pre ++ (r, 12) :: suf
                   /\ 12 ∉ pre.*2).
Proof.
  assert (H2 : (length [(1, 11); (2, 12)] < 3)%nat) by (simpl; lia).
  split; [exact heap12_is_slist |]. split; [exact H2 |].
  exact (slist_find_first heap12 _ 1 12 3 heap12_is_slist H2).
Defined.

Lemma slist_foreach_items_witness :
  is_slist heap12 1 [(1, 11); (2, 12)]
  /\ (length [(1, 11); (2, 12)] < 3)%nat
  /\ ac_slist_foreach 3 heap12 1 = Ok [11; 12].
Proof.
  assert (H2 : (length [(1, 11); (2, 12)] < 3)%nat) by (simpl; lia).
  split; [exact heap12_is_slist |]. split; [exact H2 |].
  exact (slist_foreach_items heap12 _ 1 3 heap12_is_slist H2).
Defined.

Lemma slist_preadd_front_witness :
  is_slist heap12 1 [(1, 11); (2, 12)]
  /\ 3 <> NULL /\ heap12 !! 3 = None
  /\ exists h',
       ac_slist_preadd 3 heap12 1 10 = Ok (h', 3)
       /\ is_slist h' 3 [(3, 10); (1, 11); (2, 12)]
       /\ (forall b, b <> 3 -> h' !! b = heap12 !! b).
Proof.
  assert (H2 : 3 <> NULL) by done.
  assert (H3 : heap12 !! 3 = None) by reflexivity.
  split; [exact heap12_is_slist |]. split; [exact H2 |]. split; [exact H3 |].
  exact (slist_preadd_front heap12 _ 1 3 10 heap12_is_slist H2 H3).
Defined.

Lemma slist_add_end_witness :
  is_slist heap12 1 [(1, 11); (2, 12)]
  /\ 3 <> NULL /\ heap12 !! 3 = None
  /\ (length [(1, 11); (2, 12)] < 3)%nat
  /\ exists h' p',
       ac_slist_add 3 3 heap12 1 13 = Ok (h', p')
       /\ is_slist h' p' ([(1, 11); (2, 12)] ++ [(3, 13)])
       /\ ([(1, 11); (2, 12)] <> [] -> p' = 1)
       /\ (forall b, b <> 3 -> b ∉ [(1, 11); (2, 12)].*1 ->
           h' !! b = heap12 !! b).
Proof.
  assert (H2 : 3 <> NULL) by done.
  assert (H3 : heap12 !! 3 = None) by reflexivity.
  assert (H4 : (length [(1, 11); (2, 12)] < 3)%nat) by (simpl; lia).
  split; [exact heap12_is_slist |]. split; [exact H2 |]. split; [exact H3 |].
  split; [exact H4 |].
  exact (slist_add_end heap12 _ 1 3 13 3 heap12_is_slist H2 H3 H4).
Defined.

Lemma slist_remove_absent_witness :
  is_slist heap12 1 [(1, 11); (2, 12)]
  /\ (13 ∉ [(1, 11); (2, 12)].*2)
  /\ (length [(1, 11); (2, 12)] < 3)%nat
  /\ ac_slist_remove 3 heap12 1 13 5 = Ok (heap12, 1, false, []).
Proof.
  assert (H2 : 13 ∉ [(1, 11); (2, 12)].*2).
  { simpl. intros H. apply elem_of_cons in H as [H | H]; [done |].
    apply list_elem_of_singleton in H. discriminate H. }
  assert (H3 : (length [(1, 11); (2, 12)] < 3)%nat) by (simpl; lia).
  split; [exact heap12_is_slist |]. split; [exact H2 |]. split; [exact H3 |].
  exact (slist_remove_absent heap12 _ 1 13 5 3 heap12_is_slist H2 H3).
Defined.

Lemma slist_remove_first_witness :
  is_slist heap12 1 ([(1, 11)] ++ (2, 12) :: [])
  /\ (12 ∉ [(1, 11)].*2)
  /\ (length [(1, 11)] < 3)%nat
  /\ exists h' p',
       ac_slist_remove 3 heap12 1 12 5
       = Ok (h', p', true,
             if negb (5 =? NULL) then [Call (caller_free_item 5) 12] else [])
       /\ is_slist h' p' ([(1, 11)] ++ [])
       /\ h' !! 2 = None
       /\ ([(1, 11)] <> [] -> p' = 1)
       /\ (forall b, b ∉ ([(1, 11)] ++ (2, 12) :: []).*1 ->
           h' !! b = heap12 !! b).
Proof.
  assert (H2 : 12 ∉ [(1, 11)].*2).
  { simpl. intros H. apply list_elem_of_singleton in H. discriminate H. }
  assert (H3 : (length [(1, 11)] < 3)%nat) by (simpl; lia).
  split; [exact heap12_is_slist |]. split; [exact H2 |]. split; [exact H3 |].
  exact (slist_remove_first heap12 [(1, 11)] [] 1 2 12 5 3
           heap12_is_slist H2 H3).
Defined.

Lemma slist_reverse_reverses_witness :
  is_slist heap12 1 [(1, 11); (2, 12)]
  /\ (length [(1, 11); (2, 12)] < 3)%nat
  /\ exists h' p',
       ac_slist_reverse 3 heap12 1 = Ok (h', p')
       /\ is_slist h' p' (reverse [(1, 11); (2, 12)])
       /\ (forall b, b ∉ [(1, 11); (2, 12)].*1 -> h' !! b = heap12 !! b).
Proof.
  assert (H2 : (length [(1, 11); (2, 12)] < 3)%nat) by (simpl; lia).
  split; [exact heap12_is_slist |]. split; [exact H2 |].
  exact (slist_reverse_reverses heap12 _ 1 3 heap12_is_slist H2).
Defined.

Lemma slist_reverse_twice_witness :
  is_slist heap12 1 [(1, 11); (2, 12)]
  /\ (length [(1, 11); (2, 12)] < 3)%nat
  /\ exists h1 p1,
       ac_slist_reverse 3 heap12 1 = Ok (h1, p1)
       /\ ac_slist_reverse 3 h1 p1 = Ok (heap12, 1).
Proof.
  assert (H2 : (length [(1, 11); (2, 12)] < 3)%nat) by (simpl; lia).
  split; [exact heap12_is_slist |]. split; [exact H2 |].
  exact (slist_reverse_twice heap12 _ 1 3 heap12_is_slist H2).
Defined.

Lemma slist_destroy_all_witness :
  is_slist heap12 1 [(1, 11); (2, 12)]
  /\ 5 <> NULL
  /\ (length [(1, 11); (2, 12)] < 3)%nat
  /\ exists h',
       ac_slist_destroy 3 heap12 1 5
       = Ok (h', NULL,
             [Call (caller_free_item 5) 11; Call (caller_free_item 5) 12])
       /\ (forall a, a ∈ [(1, 11); (2, 12)].*1 -> h' !! a = None)
       /\ (forall b, b ∉ [(1, 11); (2, 12)].*1 -> h' !! b = heap12 !! b).
Proof.
  assert (H2 : 5 <> NULL) by done.
  assert (H3 : (length [(1, 11); (2, 12)] < 3)%nat) by (simpl; lia).
  split; [exact heap12_is_slist |]. split; [exact H2 |]. split; [exact H3 |].
  exact (slist_destroy_all heap12 _ 1 5 3 heap12_is_slist H2 H3).
Defined.

Lemma slist_destroy_null_free_data_witness :
  is_slist heap12 1 [(1, 11); (2, 12)]
  /\ (0 < 3)%nat
  /\ ac_slist_destroy 3 heap12 1 NULL = Fault.
Proof.
  assert (H2 : (0 < 3)%nat) by lia.
  split; [exact heap12_is_slist |]. split; [exact H2 |].
  exact (slist_destroy_null_free_data heap12 _ 1 3 heap12_is_slist H2).
Defined.

Lemma slist_preadd_reverse_is_add_witness :
  length [3; 4] = length [13; 14]
  /\ NoDup [3; 4]
  /\ (forall a, a ∈ [3; 4] -> a <> NULL /\ no_node !! a = None)
  /\ (length [13; 14] < 3)%nat
  /\ exists h' p',
       slist_add_all 3 no_node NULL [3; 4] [13; 14] = Ok (h', p')
       /\ (try! hl := slist_preadd_all no_node NULL [3; 4] [13; 14] in
           ac_slist_reverse 3 hl.1 hl.2) = Ok (h', p')
       /\ is_slist h' p' (zip [3; 4] [13; 14]).
Proof.
  assert (H1 : length [3; 4] = length [13; 14]) by reflexivity.
  assert (H2 : NoDup [3; 4]).
  { apply NoDup_cons. split; [| apply NoDup_singleton].
    intros H. apply list_elem_of_singleton in H. discriminate H. }
  assert (H4 : (length [13; 14] < 3)%nat) by (simpl; lia).
  split; [exact H1 |]. split; [exact H2 |]. split; [exact fresh_3_4 |].
  split; [exact H4 |].
  exact (slist_preadd_reverse_is_add 3 [3; 4] [13; 14] no_node H1 H2
           fresh_3_4 H4).
Defined.
